(** * Change-request lifecycle and SLA monitor

    A shallow embedding of the change-request entity
    (app/models/change_request.py), the access rules of the user model
    (app/models/user.py) and the SLA sweep (app/services/sla_monitor.py,
    with the two SLA senders of app/services/email_service.py), followed by
    the properties of the lifecycle specification checked against them. *)

From Stdlib Require Import ZArith List Bool String Ascii Lia.
From Stdlib Require Import DecimalString DecimalNat.
From stdpp Require Import base numbers list strings.

Local Open Scope Z_scope.

(** ** Time

    A Python [datetime] is either naive (wall-clock fields, no zone) or
    aware (an instant).  Both carry microseconds: since the epoch for an
    aware value, and of the wall-clock reading taken as if it were UTC for
    a naive one, which is what [replace(tzinfo=timezone.utc)] makes of it.
    A [timedelta] is a number of microseconds. *)

Inductive datetime : Type :=
  | Naive (wall : Z)
  | Aware (instant : Z).

Definition timedelta : Type := Z.

Definition usec_per_second : Z := 1000000.
Definition usec_per_day : Z := 86400 * usec_per_second.

(** Exceptions that the modelled code can raise. *)
Inductive exn : Type :=
  | TypeError        (* naive and aware datetimes compared or subtracted *)
  | AttributeError   (* an attribute of [None] read *)
  | PersistenceError (* db.session.commit() failed *).

Inductive Result (A : Type) : Type :=
  | Ok (a : A)
  | Raise (e : exn).
Arguments Ok {A} a.
Arguments Raise {A} e.

(** [a > b] on datetimes: ordering needs both operands to be of one kind. *)
Definition dt_gt (a b : datetime) : Result bool :=
  match a, b with
  | Aware x, Aware y => Ok (y <? x)
  | Naive x, Naive y => Ok (y <? x)
  | _, _ => Raise TypeError
  end.

(** [a - b] on datetimes, same restriction. *)
Definition dt_sub (a b : datetime) : Result timedelta :=
  match a, b with
  | Aware x, Aware y => Ok (x - y)
  | Naive x, Naive y => Ok (x - y)
  | _, _ => Raise TypeError
  end.

(** [dt.replace(hour=23, minute=59, second=59)]: the day and the
    microsecond field are kept. *)
Definition end_of_day_usec (t : Z) : Z :=
  usec_per_day * (t / usec_per_day)
  + (23 * 3600 + 59 * 60 + 59) * usec_per_second
  + t mod usec_per_second.

Definition replace_235959 (d : datetime) : datetime :=
  match d with
  | Naive t => Naive (end_of_day_usec t)
  | Aware t => Aware (end_of_day_usec t)
  end.

(** ** Data model *)

Inductive CRStatus : Type :=
  | DRAFT | SUBMITTED | PENDING_APPROVAL | APPROVED | REJECTED
  | IN_PROGRESS | IMPLEMENTED | CLOSED | ROLLED_BACK.

Definition CRStatus_eqb (a b : CRStatus) : bool :=
  match a, b with
  | DRAFT, DRAFT | SUBMITTED, SUBMITTED
  | PENDING_APPROVAL, PENDING_APPROVAL | APPROVED, APPROVED
  | REJECTED, REJECTED | IN_PROGRESS, IN_PROGRESS
  | IMPLEMENTED, IMPLEMENTED | CLOSED, CLOSED
  | ROLLED_BACK, ROLLED_BACK => true
  | _, _ => false
  end.

(** [status in [s1, ..., sn]] *)
Definition status_in (s : CRStatus) (l : list CRStatus) : bool :=
  existsb (CRStatus_eqb s) l.

Record Role : Type := mkRole {
  role_name : string;
  permissions : list string
}.

Record ProjectMembership : Type := mkMembership {
  project_id : Z;
  is_active : bool
}.

Record User : Type := mkUser {
  user_id : Z;
  role : option Role;
  project_memberships : list ProjectMembership
}.

Record Project : Type := mkProject {
  proj_id : Z;
  created_by_id : option Z
}.

(** The columns of [ChangeRequest] that the modelled methods read or write.
    A Boolean column that is still [None] on an unflushed object behaves as
    [False] in every test the code makes, so the two flags are [bool]. *)
Record ChangeRequest : Type := mkCR {
  cr_id : Z;
  cr_number : string;
  project : Project;
  status : CRStatus;
  requester_id : Z;
  approver_id : option Z;
  implementer_id : option Z;
  approved_date : option datetime;
  implementation_date : option datetime;
  implementation_deadline : option datetime;
  closed_date : option datetime;
  sla_deadline : option datetime;
  is_sla_breached : bool;
  sla_warning_sent : bool;
  rollback_reason : option string;
  rolled_back_at : option datetime;
  rolled_back_by_id : option Z;
  approval_comments : option string;
  rejection_reason : option string;
  closure_comments : option string;
  closure_notes : option string;
  closed_by_id : option Z;
  submitted_at : option datetime
}.

(** Attribute assignment, one setter per assigned column. *)
Section Setters.
Variable c : ChangeRequest.

Definition set_cr_number (v : string) : ChangeRequest :=
  mkCR (cr_id c) v (project c) (status c) (requester_id c)
    (approver_id c) (implementer_id c) (approved_date c)
    (implementation_date c) (implementation_deadline c) (closed_date c)
    (sla_deadline c) (is_sla_breached c) (sla_warning_sent c)
    (rollback_reason c) (rolled_back_at c) (rolled_back_by_id c)
    (approval_comments c) (rejection_reason c) (closure_comments c)
    (closure_notes c) (closed_by_id c) (submitted_at c).

Definition set_status (v : CRStatus) : ChangeRequest :=
  mkCR (cr_id c) (cr_number c) (project c) v (requester_id c)
    (approver_id c) (implementer_id c) (approved_date c)
    (implementation_date c) (implementation_deadline c) (closed_date c)
    (sla_deadline c) (is_sla_breached c) (sla_warning_sent c)
    (rollback_reason c) (rolled_back_at c) (rolled_back_by_id c)
    (approval_comments c) (rejection_reason c) (closure_comments c)
    (closure_notes c) (closed_by_id c) (submitted_at c).

Definition set_approver_id (v : option Z) : ChangeRequest :=
  mkCR (cr_id c) (cr_number c) (project c) (status c) (requester_id c)
    v (implementer_id c) (approved_date c)
    (implementation_date c) (implementation_deadline c) (closed_date c)
    (sla_deadline c) (is_sla_breached c) (sla_warning_sent c)
    (rollback_reason c) (rolled_back_at c) (rolled_back_by_id c)
    (approval_comments c) (rejection_reason c) (closure_comments c)
    (closure_notes c) (closed_by_id c) (submitted_at c).

Definition set_implementer_id (v : option Z) : ChangeRequest :=
  mkCR (cr_id c) (cr_number c) (project c) (status c) (requester_id c)
    (approver_id c) v (approved_date c)
    (implementation_date c) (implementation_deadline c) (closed_date c)
    (sla_deadline c) (is_sla_breached c) (sla_warning_sent c)
    (rollback_reason c) (rolled_back_at c) (rolled_back_by_id c)
    (approval_comments c) (rejection_reason c) (closure_comments c)
    (closure_notes c) (closed_by_id c) (submitted_at c).

Definition set_approved_date (v : option datetime) : ChangeRequest :=
  mkCR (cr_id c) (cr_number c) (project c) (status c) (requester_id c)
    (approver_id c) (implementer_id c) v
    (implementation_date c) (implementation_deadline c) (closed_date c)
    (sla_deadline c) (is_sla_breached c) (sla_warning_sent c)
    (rollback_reason c) (rolled_back_at c) (rolled_back_by_id c)
    (approval_comments c) (rejection_reason c) (closure_comments c)
    (closure_notes c) (closed_by_id c) (submitted_at c).

Definition set_implementation_date (v : option datetime) : ChangeRequest :=
  mkCR (cr_id c) (cr_number c) (project c) (status c) (requester_id c)
    (approver_id c) (implementer_id c) (approved_date c)
    v (implementation_deadline c) (closed_date c)
    (sla_deadline c) (is_sla_breached c) (sla_warning_sent c)
    (rollback_reason c) (rolled_back_at c) (rolled_back_by_id c)
    (approval_comments c) (rejection_reason c) (closure_comments c)
    (closure_notes c) (closed_by_id c) (submitted_at c).

Definition set_closed_date (v : option datetime) : ChangeRequest :=
  mkCR (cr_id c) (cr_number c) (project c) (status c) (requester_id c)
    (approver_id c) (implementer_id c) (approved_date c)
    (implementation_date c) (implementation_deadline c) v
    (sla_deadline c) (is_sla_breached c) (sla_warning_sent c)
    (rollback_reason c) (rolled_back_at c) (rolled_back_by_id c)
    (approval_comments c) (rejection_reason c) (closure_comments c)
    (closure_notes c) (closed_by_id c) (submitted_at c).

Definition set_sla_deadline (v : option datetime) : ChangeRequest :=
  mkCR (cr_id c) (cr_number c) (project c) (status c) (requester_id c)
    (approver_id c) (implementer_id c) (approved_date c)
    (implementation_date c) (implementation_deadline c) (closed_date c)
    v (is_sla_breached c) (sla_warning_sent c)
    (rollback_reason c) (rolled_back_at c) (rolled_back_by_id c)
    (approval_comments c) (rejection_reason c) (closure_comments c)
    (closure_notes c) (closed_by_id c) (submitted_at c).

Definition set_is_sla_breached (v : bool) : ChangeRequest :=
  mkCR (cr_id c) (cr_number c) (project c) (status c) (requester_id c)
    (approver_id c) (implementer_id c) (approved_date c)
    (implementation_date c) (implementation_deadline c) (closed_date c)
    (sla_deadline c) v (sla_warning_sent c)
    (rollback_reason c) (rolled_back_at c) (rolled_back_by_id c)
    (approval_comments c) (rejection_reason c) (closure_comments c)
    (closure_notes c) (closed_by_id c) (submitted_at c).

Definition set_sla_warning_sent (v : bool) : ChangeRequest :=
  mkCR (cr_id c) (cr_number c) (project c) (status c) (requester_id c)
    (approver_id c) (implementer_id c) (approved_date c)
    (implementation_date c) (implementation_deadline c) (closed_date c)
    (sla_deadline c) (is_sla_breached c) v
    (rollback_reason c) (rolled_back_at c) (rolled_back_by_id c)
    (approval_comments c) (rejection_reason c) (closure_comments c)
    (closure_notes c) (closed_by_id c) (submitted_at c).

Definition set_rollback_reason (v : option string) : ChangeRequest :=
  mkCR (cr_id c) (cr_number c) (project c) (status c) (requester_id c)
    (approver_id c) (implementer_id c) (approved_date c)
    (implementation_date c) (implementation_deadline c) (closed_date c)
    (sla_deadline c) (is_sla_breached c) (sla_warning_sent c)
    v (rolled_back_at c) (rolled_back_by_id c)
    (approval_comments c) (rejection_reason c) (closure_comments c)
    (closure_notes c) (closed_by_id c) (submitted_at c).

Definition set_rolled_back_at (v : option datetime) : ChangeRequest :=
  mkCR (cr_id c) (cr_number c) (project c) (status c) (requester_id c)
    (approver_id c) (implementer_id c) (approved_date c)
    (implementation_date c) (implementation_deadline c) (closed_date c)
    (sla_deadline c) (is_sla_breached c) (sla_warning_sent c)
    (rollback_reason c) v (rolled_back_by_id c)
    (approval_comments c) (rejection_reason c) (closure_comments c)
    (closure_notes c) (closed_by_id c) (submitted_at c).

Definition set_rolled_back_by_id (v : option Z) : ChangeRequest :=
  mkCR (cr_id c) (cr_number c) (project c) (status c) (requester_id c)
    (approver_id c) (implementer_id c) (approved_date c)
    (implementation_date c) (implementation_deadline c) (closed_date c)
    (sla_deadline c) (is_sla_breached c) (sla_warning_sent c)
    (rollback_reason c) (rolled_back_at c) v
    (approval_comments c) (rejection_reason c) (closure_comments c)
    (closure_notes c) (closed_by_id c) (submitted_at c).

Definition set_approval_comments (v : option string) : ChangeRequest :=
  mkCR (cr_id c) (cr_number c) (project c) (status c) (requester_id c)
    (approver_id c) (implementer_id c) (approved_date c)
    (implementation_date c) (implementation_deadline c) (closed_date c)
    (sla_deadline c) (is_sla_breached c) (sla_warning_sent c)
    (rollback_reason c) (rolled_back_at c) (rolled_back_by_id c)
    v (rejection_reason c) (closure_comments c)
    (closure_notes c) (closed_by_id c) (submitted_at c).

Definition set_rejection_reason (v : option string) : ChangeRequest :=
  mkCR (cr_id c) (cr_number c) (project c) (status c) (requester_id c)
    (approver_id c) (implementer_id c) (approved_date c)
    (implementation_date c) (implementation_deadline c) (closed_date c)
    (sla_deadline c) (is_sla_breached c) (sla_warning_sent c)
    (rollback_reason c) (rolled_back_at c) (rolled_back_by_id c)
    (approval_comments c) v (closure_comments c)
    (closure_notes c) (closed_by_id c) (submitted_at c).

Definition set_closure_comments (v : option string) : ChangeRequest :=
  mkCR (cr_id c) (cr_number c) (project c) (status c) (requester_id c)
    (approver_id c) (implementer_id c) (approved_date c)
    (implementation_date c) (implementation_deadline c) (closed_date c)
    (sla_deadline c) (is_sla_breached c) (sla_warning_sent c)
    (rollback_reason c) (rolled_back_at c) (rolled_back_by_id c)
    (approval_comments c) (rejection_reason c) v
    (closure_notes c) (closed_by_id c) (submitted_at c).

Definition set_closure_notes (v : option string) : ChangeRequest :=
  mkCR (cr_id c) (cr_number c) (project c) (status c) (requester_id c)
    (approver_id c) (implementer_id c) (approved_date c)
    (implementation_date c) (implementation_deadline c) (closed_date c)
    (sla_deadline c) (is_sla_breached c) (sla_warning_sent c)
    (rollback_reason c) (rolled_back_at c) (rolled_back_by_id c)
    (approval_comments c) (rejection_reason c) (closure_comments c)
    v (closed_by_id c) (submitted_at c).

Definition set_closed_by_id (v : option Z) : ChangeRequest :=
  mkCR (cr_id c) (cr_number c) (project c) (status c) (requester_id c)
    (approver_id c) (implementer_id c) (approved_date c)
    (implementation_date c) (implementation_deadline c) (closed_date c)
    (sla_deadline c) (is_sla_breached c) (sla_warning_sent c)
    (rollback_reason c) (rolled_back_at c) (rolled_back_by_id c)
    (approval_comments c) (rejection_reason c) (closure_comments c)
    (closure_notes c) v (submitted_at c).

Definition set_submitted_at (v : option datetime) : ChangeRequest :=
  mkCR (cr_id c) (cr_number c) (project c) (status c) (requester_id c)
    (approver_id c) (implementer_id c) (approved_date c)
    (implementation_date c) (implementation_deadline c) (closed_date c)
    (sla_deadline c) (is_sla_breached c) (sla_warning_sent c)
    (rollback_reason c) (rolled_back_at c) (rolled_back_by_id c)
    (approval_comments c) (rejection_reason c) (closure_comments c)
    (closure_notes c) (closed_by_id c) v.
End Setters.

(** ** Role-based guards (app/models/user.py, app/models/role.py) *)

(** [str.lower()] on the bytes of a role name: the letters A-Z are
    lowered, every other byte is kept.  No character outside ASCII lowers
    to one of the letters of the four recognised role names, so the
    comparison with those names is the one Python makes. *)
Definition lower_ascii (c : ascii) : ascii :=
  let n := nat_of_ascii c in
  if ((65 <=? n) && (n <=? 90))%nat then ascii_of_nat (n + 32) else c.

Fixpoint lower (s : string) : string :=
  match s with
  | EmptyString => EmptyString
  | String c s' => String (lower_ascii c) (lower s')
  end.

(** [Role.has_permission]: [any(p.name == permission_name ...)] *)
Definition role_has_permission (r : Role) (permission_name : string) : bool :=
  existsb (fun p => String.eqb p permission_name) (permissions r).

(** [User.has_permission] *)
Definition has_permission (u : User) (permission : string) : bool :=
  match role u with
  | None => false
  | Some r => role_has_permission r permission
  end.

(** [User.has_role]: [self.role and self.role.name == role_name] *)
Definition has_role (u : User) (name : string) : bool :=
  match role u with
  | None => false
  | Some r => String.eqb (role_name r) name
  end.

Definition is_admin (u : User) : bool := has_role u "admin".

(** [User.has_project_access] *)
Definition has_project_access (u : User) (p : Project) : bool :=
  if is_admin u then true
  else existsb (fun m => (project_id m =? proj_id p) && is_active m)
         (project_memberships u).

Definition option_Z_eqb (a : option Z) (b : Z) : bool :=
  match a with
  | Some x => x =? b
  | None => false
  end.

(** [User.can_access_cr] *)
Definition can_access_cr (u : User) (change_request : ChangeRequest) : bool :=
  let user_role_name := option_map (fun r => lower (role_name r)) (role u) in
  if bool_decide (user_role_name = Some "admin"%string) then
    option_Z_eqb (created_by_id (project change_request)) (user_id u)
  else if negb (has_project_access u (project change_request)) then false
  else if bool_decide (user_role_name = Some "requester"%string) then
    requester_id change_request =? user_id u
  else if bool_decide (user_role_name = Some "implementer"%string) then
    status_in (status change_request)
      [APPROVED; IN_PROGRESS; IMPLEMENTED; CLOSED; ROLLED_BACK]
  else if bool_decide (user_role_name = Some "approver"%string) then true
  else false.

(** [ChangeRequest.can_edit] *)
Definition non_editable_statuses : list CRStatus :=
  [APPROVED; IMPLEMENTED; CLOSED; REJECTED; ROLLED_BACK].

Definition can_edit (self : ChangeRequest) (user : User) : bool :=
  if status_in (status self) non_editable_statuses then false
  else if requester_id self =? user_id user then true
  else if has_permission user "manage_system" then true
  else false.

(** [ChangeRequest.can_submit], [can_approve], [can_implement]: the status
    guards that the callers of the transition methods consult. *)
Definition can_submit (self : ChangeRequest) (user : User) : bool :=
  (requester_id self =? user_id user) && CRStatus_eqb (status self) DRAFT.

Definition can_approve (self : ChangeRequest) (user : User) : bool :=
  has_permission user "approve_cr"
  && CRStatus_eqb (status self) PENDING_APPROVAL.

Definition can_implement (self : ChangeRequest) (user : User) : bool :=
  has_permission user "implement_cr" && CRStatus_eqb (status self) APPROVED.

(** ** Effects: clock, persistence, notification gateway, log

    The environment fixes what the collaborators answer: the successive
    readings of the system clock (microseconds, UTC), which users hold the
    role named admin, and which calls of [db.session.commit()] fail.  The world
    is what a run changes: how many clock readings and commits were made,
    the notifications handed to the mail layer, and the log. *)

Inductive NotificationKind : Type := SlaWarning | SlaBreach.

Record Notification : Type := mkNotification {
  kind : NotificationKind;
  about : Z;               (* id of the change request *)
  recipients : list Z      (* user ids *)
}.

Inductive LogLine : Type :=
  | LogBreachDetected (cr : Z)
  | LogNoAdmins (cr : Z)
  | LogBreachEmailSent (cr : Z)
  | LogWarning (cr : Z)
  | LogWarningEmailSent (cr : Z)
  | LogCompleted (checked : nat)
  | LogError (e : exn).

Record Env : Type := mkEnv {
  clock : nat -> Z;          (* successive readings of the system clock *)
  utc_offset : Z;            (* local time minus UTC *)
  admins : list Z;           (* ids of the users whose role is admin *)
  commit_fails : nat -> bool (* does the n-th commit of a run fail *)
}.

Record World : Type := mkWorld {
  ticks : nat;
  commits : nat;
  outbox : list Notification;
  log : list LogLine
}.

Definition M (A : Type) : Type := World -> Result A * World.

Definition ret {A} (a : A) : M A := fun w => (Ok a, w).

Definition bind {A B} (m : M A) (k : A -> M B) : M B :=
  fun w =>
    match m w with
    | (Ok a, w') => k a w'
    | (Raise e, w') => (Raise e, w')
    end.

Definition lift {A} (r : Result A) : M A := fun w => (r, w).

Notation "'let*' x ':=' m 'in' k" := (bind m (fun x => k))
  (at level 10, x name, m at level 100, k at level 200).
Notation "m ';;' k" := (bind m (fun _ => k))
  (at level 100, k at level 200, right associativity).

(** [datetime.now(timezone.utc)] *)
Definition now_utc (E : Env) : M datetime :=
  fun w => (Ok (Aware (clock E (ticks w))),
            mkWorld (S (ticks w)) (commits w) (outbox w) (log w)).

(** [datetime.now()]: the same clock, read as naive local time. *)
Definition now_local (E : Env) : M datetime :=
  fun w => (Ok (Naive (clock E (ticks w) + utc_offset E)),
            mkWorld (S (ticks w)) (commits w) (outbox w) (log w)).

(** [current_app.logger.*] *)
Definition logger (l : LogLine) : M unit :=
  fun w => (Ok tt, mkWorld (ticks w) (commits w) (outbox w) (log w ++ [l])).

(** A message handed to [EmailService._send_email], which swallows its own
    failures. *)
Definition dispatch (n : Notification) : M unit :=
  fun w => (Ok tt, mkWorld (ticks w) (commits w) (outbox w ++ [n]) (log w)).

(** [db.session.commit()]: the world counts it; the effect on the session's
    objects is applied by the sweep loop, which holds them. *)
Definition db_commit (E : Env) : M unit :=
  fun w =>
    if commit_fails E (commits w) then (Raise PersistenceError, w)
    else (Ok tt, mkWorld (ticks w) (S (commits w)) (outbox w) (log w)).

(** ** Transition methods (app/models/change_request.py) *)

Definition submit (E : Env) (self : ChangeRequest) : M ChangeRequest :=
  if CRStatus_eqb (status self) DRAFT then
    let self := set_status self PENDING_APPROVAL in
    let* t := now_utc E in
    let self := set_submitted_at self (Some t) in
    let* t' := now_utc E in
    ret (set_sla_deadline self (Some (replace_235959 t')))
  else ret self.

Definition approve (E : Env) (self : ChangeRequest) (approver : User)
    (comments : option string) : M ChangeRequest :=
  let self := set_status self APPROVED in
  let self := set_approver_id self (Some (user_id approver)) in
  let* t := now_utc E in
  let self := set_approved_date self (Some t) in
  ret (set_approval_comments self comments).

Definition reject (E : Env) (self : ChangeRequest) (approver : User)
    (reason : option string) : M ChangeRequest :=
  let self := set_status self REJECTED in
  let self := set_approver_id self (Some (user_id approver)) in
  let* t := now_utc E in
  let self := set_approved_date self (Some t) in
  ret (set_rejection_reason self reason).

Definition start_implementation (E : Env) (self : ChangeRequest)
    (implementer : User) : M ChangeRequest :=
  let self := set_status self IN_PROGRESS in
  let self := set_implementer_id self (Some (user_id implementer)) in
  let* t := now_utc E in
  ret (set_implementation_date self (Some t)).

Definition complete_implementation (self : ChangeRequest) : M ChangeRequest :=
  ret (set_status self IMPLEMENTED).

Definition close (E : Env) (self : ChangeRequest) (user : User)
    (comments notes : option string) : M ChangeRequest :=
  let self := set_status self CLOSED in
  let* t := now_utc E in
  let self := set_closed_date self (Some t) in
  let self := set_closed_by_id self (Some (user_id user)) in
  let self := set_closure_comments self comments in
  ret (set_closure_notes self notes).

Definition rollback (E : Env) (self : ChangeRequest) (user : User)
    (reason : option string) : M ChangeRequest :=
  let self := set_status self ROLLED_BACK in
  let* t := now_utc E in
  let self := set_rolled_back_at self (Some t) in
  let self := set_rolled_back_by_id self (Some (user_id user)) in
  ret (set_rollback_reason self reason).

(** A call of one of the seven public transition methods. *)
Inductive Transition : Type :=
  | CallSubmit
  | CallApprove (approver : User) (comments : option string)
  | CallReject (approver : User) (reason : option string)
  | CallStartImplementation (implementer : User)
  | CallCompleteImplementation
  | CallClose (user : User) (comments notes : option string)
  | CallRollback (user : User) (reason : option string).

Definition call (E : Env) (t : Transition) (self : ChangeRequest)
    : M ChangeRequest :=
  match t with
  | CallSubmit => submit E self
  | CallApprove a c => approve E self a c
  | CallReject a r => reject E self a r
  | CallStartImplementation i => start_implementation E self i
  | CallCompleteImplementation => complete_implementation self
  | CallClose u c n => close E self u c n
  | CallRollback u r => rollback E self u r
  end.

(** ** SLA evaluator (app/models/change_request.py) *)

(** [ChangeRequest.check_sla_breach]: the comparison raises on a naive
    deadline. *)
Definition check_sla_breach (E : Env) (self : ChangeRequest)
    : M (ChangeRequest * bool) :=
  match implementation_deadline self with
  | Some deadline =>
      if negb (is_sla_breached self) then
        let* t := now_utc E in
        let* late := lift (dt_gt t deadline) in
        if late then ret (set_is_sla_breached self true, true)
        else ret (self, false)
      else ret (self, false)
  | None => ret (self, false)
  end.

(** [ChangeRequest.time_until_deadline]: a naive deadline is first made
    aware. *)
Definition time_until_deadline (E : Env) (self : ChangeRequest)
    : M (option timedelta) :=
  match implementation_deadline self with
  | Some deadline =>
      let deadline :=
        match deadline with
        | Naive t => Aware t
        | Aware t => Aware t
        end in
      let* t := now_utc E in
      let* d := lift (dt_sub deadline t) in
      ret (Some d)
  | None => ret None
  end.

(** [x is not None]; a [datetime] is always true in a condition. *)
Definition is_set {A} (o : option A) : bool :=
  match o with
  | Some _ => true
  | None => false
  end.

(** Truth value of an optional [timedelta]: [None] and the zero duration
    are false. *)
Definition truthy (t : option timedelta) : bool :=
  match t with
  | Some d => negb (d =? 0)
  | None => false
  end.

(** [total_seconds()] is the microsecond count divided by 10^6 in floating
    point.  The division is correctly rounded, hence monotone, and 86400 is
    a float with a spacing far below a microsecond around it, so
    [total_seconds() <= 86400] is decided by the microsecond count; the same
    holds for the bounds 0 and 24 on [total_seconds() / 3600]. *)
Definition seconds_24h : timedelta := 86400 * usec_per_second.

(** [ChangeRequest.is_deadline_warning_needed] *)
Definition is_deadline_warning_needed (E : Env) (self : ChangeRequest)
    : M bool :=
  if is_set (implementation_deadline self)
     && negb (sla_warning_sent self) && negb (is_sla_breached self) then
    let* time_left := time_until_deadline E self in
    if truthy time_left && (default 0 time_left <=? seconds_24h)
    then ret true
    else ret false
  else ret false.

(** ** SLA senders (app/services/email_service.py)

    A notification is one call of a sender that reaches its mail loop, with
    the users it addresses. *)

Definition opt_to_list {A} (o : option A) : list A :=
  match o with
  | Some a => [a]
  | None => []
  end.

(** [EmailService.send_sla_warning_email]: implementer and approver when
    set, and the requester, without duplicates.  The body of every mail
    formats the deadline, [cr.implementation_deadline.strftime(...)], before
    the mail is handed over, so without a deadline the first round of the
    mail loop raises and nobody is mailed. *)
Definition send_sla_warning_email (E : Env) (cr : ChangeRequest) : M unit :=
  let recipients :=
    opt_to_list (implementer_id cr) ++ opt_to_list (approver_id cr)
    ++ [requester_id cr] in
  let* time_remaining := time_until_deadline E cr in
  match implementation_deadline cr with
  | Some deadline =>
      dispatch (mkNotification SlaWarning (cr_id cr) (remove_dups recipients))
  | None => lift (Raise AttributeError)
  end.

(** The mail loop of [send_sla_breach_email] reads [datetime.now()] once for
    every admin, for the line that says when the mail was generated. *)
Fixpoint generated_stamps (E : Env) (to : list Z) : M unit :=
  match to with
  | [] => ret tt
  | _ :: rest => let* t := now_local E in generated_stamps E rest
  end.

(** [EmailService.send_sla_breach_email]: returns early without admins;
    otherwise subtracts the deadline from the naive [datetime.now()], which
    raises on an aware deadline, before it mails every admin.  Without a
    deadline nothing is subtracted, and the first round of the mail loop
    raises where it formats the deadline, before it reads the clock. *)
Definition send_sla_breach_email (E : Env) (cr : ChangeRequest) : M unit :=
  match admins E with
  | [] => logger (LogNoAdmins (cr_id cr))
  | _ :: _ =>
      match implementation_deadline cr with
      | Some deadline =>
          let* t := now_local E in
          let* breach_time := lift (dt_sub t deadline) in
          generated_stamps E (admins E) ;;
          dispatch (mkNotification SlaBreach (cr_id cr) (admins E))
      | None => lift (Raise AttributeError)
      end
  end.

(** ** SLA sweep (app/services/sla_monitor.py) *)

(** The body of the loop of [check_sla_deadlines], for one change request. *)
Definition process_cr (E : Env) (cr : ChangeRequest) : M ChangeRequest :=
  if CRStatus_eqb (status cr) CLOSED then ret cr
  else
    let* res := check_sla_breach E cr in
    let cr := fst res in
    if snd res then
      logger (LogBreachDetected (cr_id cr)) ;;
      if negb (sla_warning_sent cr) then
        send_sla_breach_email E cr ;;
        let cr := set_sla_warning_sent cr true in
        db_commit E ;;
        logger (LogBreachEmailSent (cr_id cr)) ;;
        ret cr
      else ret cr
    else
      let* needed := is_deadline_warning_needed E cr in
      if needed && negb (sla_warning_sent cr) then
        let* time_remaining := time_until_deadline E cr in
        if truthy time_remaining then
          let hours_usec := default 0 time_remaining in
          if (0 <? hours_usec) && (hours_usec <=? seconds_24h) then
            logger (LogWarning (cr_id cr)) ;;
            send_sla_warning_email E cr ;;
            let cr := set_sla_warning_sent cr true in
            db_commit E ;;
            logger (LogWarningEmailSent (cr_id cr)) ;;
            ret cr
          else ret cr
        else ret cr
      else ret cr.

(** An object of the session: its attributes, and the row last committed
    for it. *)
Record Row : Type := mkRow {
  obj : ChangeRequest;
  stored : ChangeRequest
}.

Definition load (cr : ChangeRequest) : Row := mkRow cr cr.
Definition flush (r : Row) : Row := mkRow (obj r) (obj r).
Definition revert (r : Row) : Row := mkRow (stored r) (stored r).

(** The query of the sweep: active status and a deadline. *)
Definition active_statuses : list CRStatus :=
  [APPROVED; IN_PROGRESS; IMPLEMENTED].

Definition is_active_cr (cr : ChangeRequest) : bool :=
  status_in (status cr) active_statuses
  && is_set (implementation_deadline cr).

(** [for cr in active_crs: ...].  [visited] are the objects already
    iterated over.  A commit made by the body flushes every object of the
    session; the objects not yet visited are clean.  An exception leaves
    the loop at once: what the body had assigned to its object is undone by
    the rollback of the handler, so the row is kept as it was loaded. *)
Fixpoint sweep_loop (E : Env) (visited todo : list Row) (w : World)
    : list Row * option exn * World :=
  match todo with
  | [] => (visited, None, w)
  | r :: rest =>
      match process_cr E (obj r) w with
      | (Ok cr', w') =>
          let visited' := visited ++ [mkRow cr' (stored r)] in
          let visited' :=
            if (commits w <? commits w')%nat then map flush visited'
            else visited' in
          sweep_loop E visited' rest w'
      | (Raise e, w') => (visited ++ r :: rest, Some e, w')
      end
  end.

Record SweepResult : Type := mkSweepResult {
  session : list Row;     (* the objects of [active_crs], in order *)
  raised : option exn;    (* the exception caught by the handler, if any *)
  final : World
}.

Definition initial_world : World := mkWorld 0 0 [] [].

(** [check_sla_deadlines], over the rows of the table. *)
Definition check_sla_deadlines (E : Env) (table : list ChangeRequest)
    : SweepResult :=
  let w := snd (now_utc E initial_world) in
  let active_crs := List.filter is_active_cr table in
  match sweep_loop E [] (map load active_crs) w with
  | (rows, None, w') =>
      mkSweepResult rows None
        (snd (logger (LogCompleted (length active_crs)) w'))
  | (rows, Some e, w') =>
      mkSweepResult (map revert rows) (Some e)
        (snd (logger (LogError e) w'))
  end.

(** ** Guards, as the specification words them *)

(** The actor holds the system-management capability. *)
Definition holds_manage_system (u : User) : Prop :=
  exists r, role u = Some r /\ In "manage_system"%string (permissions r).

(** The role classification of the access guard: the lowered role name. *)
Definition role_is (u : User) (name : string) : Prop :=
  option_map (fun r => lower (role_name r)) (role u) = Some name.

(** The actor has an active membership of the project. *)
Definition belongs_to_project (u : User) (p : Project) : Prop :=
  exists m, In m (project_memberships u)
            /\ project_id m = proj_id p /\ is_active m = true.

(** The role matrix of the access guard, as the specification words it. *)
Definition access_matrix (u : User) (cr : ChangeRequest) : Prop :=
  (role_is u "admin" /\ created_by_id (project cr) = Some (user_id u))
  \/ (role_is u "requester"
      /\ requester_id cr = user_id u /\ belongs_to_project u (project cr))
  \/ (role_is u "implementer"
      /\ belongs_to_project u (project cr)
      /\ In (status cr)
           [APPROVED; IN_PROGRESS; IMPLEMENTED; CLOSED; ROLLED_BACK])
  \/ (role_is u "approver" /\ belongs_to_project u (project cr)).

(** ** The lifecycle graph, as the specification draws it

    Draft -> PendingApproval -> Approved | Rejected; Approved ->
    InProgress -> Implemented -> Closed; Implemented or Closed ->
    RolledBack by the rollback action.  The transition table also lets an
    Approved request be completed, hence the edge Approved -> Implemented. *)

Definition graph_edge (a b : CRStatus) : bool :=
  match a, b with
  | DRAFT, PENDING_APPROVAL
  | PENDING_APPROVAL, APPROVED
  | PENDING_APPROVAL, REJECTED
  | APPROVED, IN_PROGRESS
  | APPROVED, IMPLEMENTED
  | IN_PROGRESS, IMPLEMENTED
  | IMPLEMENTED, CLOSED
  | IMPLEMENTED, ROLLED_BACK
  | CLOSED, ROLLED_BACK => true
  | _, _ => false
  end.

(** Position of a status along the graph. *)
Definition rank (s : CRStatus) : nat :=
  match s with
  | DRAFT => 0
  | SUBMITTED => 1
  | PENDING_APPROVAL => 2
  | APPROVED => 3
  | REJECTED => 3
  | IN_PROGRESS => 4
  | IMPLEMENTED => 5
  | CLOSED => 6
  | ROLLED_BACK => 7
  end.

(** The status that a transition method writes. *)
Definition target (t : Transition) : CRStatus :=
  match t with
  | CallSubmit => PENDING_APPROVAL
  | CallApprove _ _ => APPROVED
  | CallReject _ _ => REJECTED
  | CallStartImplementation _ => IN_PROGRESS
  | CallCompleteImplementation => IMPLEMENTED
  | CallClose _ _ _ => CLOSED
  | CallRollback _ _ => ROLLED_BACK
  end.

(** The status guard of each transition, as the transition table of the
    specification gives it.  The entity checks it for [submit] only; the
    route handlers check it before they call the other methods, except for
    [rollback]. *)
Definition status_guard (t : Transition) (s : CRStatus) : bool :=
  match t with
  | CallSubmit => CRStatus_eqb s DRAFT
  | CallApprove _ _ | CallReject _ _ => CRStatus_eqb s PENDING_APPROVAL
  | CallStartImplementation _ => CRStatus_eqb s APPROVED
  | CallCompleteImplementation => status_in s [APPROVED; IN_PROGRESS]
  | CallClose _ _ _ => CRStatus_eqb s IMPLEMENTED
  | CallRollback _ _ => status_in s [IMPLEMENTED; CLOSED]
  end.

(** A sequence of calls on one change request, each result feeding the
    next call; the statuses observed after each call are collected.  The
    transition methods never raise. *)
Fixpoint run_calls (E : Env) (ts : list Transition) (cr : ChangeRequest)
    (w : World) : ChangeRequest * list CRStatus * World :=
  match ts with
  | [] => (cr, [], w)
  | t :: ts' =>
      match call E t cr w with
      | (Ok cr', w') =>
          let '(c, l, w'') := run_calls E ts' cr' w' in
          (c, status cr' :: l, w'')
      | (Raise _, w') => (cr, [], w')
      end
  end.

(** Every call of the sequence is made in a status that its guard allows. *)
Fixpoint guarded_calls (ts : list Transition) (s : CRStatus) : bool :=
  match ts with
  | [] => true
  | t :: ts' => status_guard t s && guarded_calls ts' (target t)
  end.

(** Consecutive statuses are joined by edges of the graph. *)
Fixpoint follows_graph (s : CRStatus) (l : list CRStatus) : bool :=
  match l with
  | [] => true
  | s' :: l' => graph_edge s s' && follows_graph s' l'
  end.

(** The columns that [submit] does not assign. *)
Definition untouched_by_submit (a b : ChangeRequest) : Prop :=
  cr_id a = cr_id b /\ cr_number a = cr_number b /\ project a = project b
  /\ requester_id a = requester_id b /\ approver_id a = approver_id b
  /\ implementer_id a = implementer_id b
  /\ approved_date a = approved_date b
  /\ implementation_date a = implementation_date b
  /\ implementation_deadline a = implementation_deadline b
  /\ closed_date a = closed_date b
  /\ is_sla_breached a = is_sla_breached b
  /\ sla_warning_sent a = sla_warning_sent b
  /\ rollback_reason a = rollback_reason b
  /\ rolled_back_at a = rolled_back_at b
  /\ rolled_back_by_id a = rolled_back_by_id b
  /\ approval_comments a = approval_comments b
  /\ rejection_reason a = rejection_reason b
  /\ closure_comments a = closure_comments b
  /\ closure_notes a = closure_notes b
  /\ closed_by_id a = closed_by_id b.

(** The world after [n] more clock readings. *)
Definition tick (n : nat) (w : World) : World :=
  mkWorld (n + ticks w) (commits w) (outbox w) (log w).

(** The microseconds of a deadline, whichever its kind. *)
Definition usec_of (d : datetime) : Z :=
  match d with
  | Naive t => t
  | Aware t => t
  end.

(** A change request with its two SLA flags replaced. *)
Definition with_flags (c : ChangeRequest) (breached warned : bool)
    : ChangeRequest :=
  set_sla_warning_sent (set_is_sla_breached c breached) warned.

(** [b] is [a] with flags that were only raised: a flag that is set in [a]
    is set in [b], and every other column is the same. *)
Definition flags_grow (a b : ChangeRequest) : Prop :=
  exists breached warned,
    b = with_flags a breached warned
    /\ (is_sla_breached a = true -> breached = true)
    /\ (sla_warning_sent a = true -> warned = true).

(** No commit fails in this environment. *)
Definition commits_succeed (E : Env) : Prop :=
  forall n, commit_fails E n = false.

(** Every reading of the clock is the same instant. *)
Definition clock_fixed_at (E : Env) (now : Z) : Prop :=
  forall n, clock E n = now.

(** What one run of the loop body did, read off the worlds before and
    after: the notifications [f] it dispatched, the commits it made, and
    how the object changed. *)
Definition body_summary (E : Env) (cr : ChangeRequest) (w : World)
    (res : Result ChangeRequest) (w' : World) : Prop :=
  exists f,
    outbox w' = outbox w ++ f
    /\ (f = [] \/
        exists n, f = [n] /\ about n = cr_id cr
                  /\ sla_warning_sent cr = false)
    /\ match res with
       | Ok cr' =>
           flags_grow cr cr'
           /\ (commits w' = commits w \/
               commits w' = S (commits w) /\ sla_warning_sent cr' = true)
           /\ (f <> [] -> commits w' = S (commits w))
       | Raise e =>
           commits w' = commits w /\ (commits_succeed E -> f = [])
       end.

(** ** The table across sweeps and calls *)

(** What the next query finds for a session object: the row committed for
    it, or, when the session outlives the sweep and its pending changes
    are flushed later ([keep_pending]), the attributes of the object. *)
Definition next_state (keep_pending : bool) (r : Row) : ChangeRequest :=
  if keep_pending then obj r else stored r.

(** The table after a sweep: the rows outside the query are untouched, the
    others are the session's objects, in the order of the query. *)
Fixpoint write_back (keep_pending : bool) (table : list ChangeRequest)
    (rows : list Row) : list ChangeRequest :=
  match table with
  | [] => []
  | cr :: table' =>
      if is_active_cr cr then
        match rows with
        | r :: rows' =>
            next_state keep_pending r :: write_back keep_pending table' rows'
        | [] => cr :: write_back keep_pending table' []
        end
      else cr :: write_back keep_pending table' rows
  end.

(** What happens to the table: a sweep, or a transition method called on
    the row at some position and committed. *)
Inductive Event : Type :=
  | Sweep (E : Env) (keep_pending : bool)
  | Call (E : Env) (w : World) (i : nat) (t : Transition).

(** The state is the table and every notification dispatched so far. *)
Definition step (ev : Event) (st : list ChangeRequest * list Notification)
    : list ChangeRequest * list Notification :=
  match ev with
  | Sweep E keep_pending =>
      let r := check_sla_deadlines E (fst st) in
      (write_back keep_pending (fst st) (session r),
       snd st ++ outbox (final r))
  | Call E w i t =>
      match fst st !! i with
      | Some cr =>
          match call E t cr w with
          | (Ok cr', _) => (<[i := cr']> (fst st), snd st)
          | (Raise _, _) => st
          end
      | None => st
      end
  end.

Definition run_events (evs : list Event)
    (st : list ChangeRequest * list Notification)
    : list ChangeRequest * list Notification :=
  fold_left (fun st ev => step ev st) evs st.

(** Same change request, and no flag of [a] is lost in [b]. *)
Definition flags_kept (a b : ChangeRequest) : Prop :=
  cr_id a = cr_id b
  /\ (is_sla_breached a = true -> is_sla_breached b = true)
  /\ (sla_warning_sent a = true -> sla_warning_sent b = true).


(** How a session row relates to the change request it was loaded from
    and to the notifications [f] dispatched while it was processed. *)
Definition row_summary (E : Env) (cr : ChangeRequest) (r : Row)
    (f : list Notification) : Prop :=
  flags_grow cr (stored r) /\ flags_grow cr (obj r)
  /\ (f = [] \/
      exists n, f = [n] /\ about n = cr_id cr /\ sla_warning_sent cr = false
                /\ (commits_succeed E ->
                    sla_warning_sent (stored r) = true
                    /\ sla_warning_sent (obj r) = true)).

(** The same, for a row of the table before and after a sweep. *)
Definition entry_summary (E : Env) (cr cr' : ChangeRequest)
    (f : list Notification) : Prop :=
  flags_grow cr cr'
  /\ (f = [] \/
      exists n, f = [n] /\ about n = cr_id cr /\ sla_warning_sent cr = false
                /\ (commits_succeed E -> sla_warning_sent cr' = true)).

(** A row is either as it was or flushed since. *)
Definition maybe_flushed (v v' : Row) : Prop := v' = v \/ v' = flush v.



Definition raises (E : Env) (s : ChangeRequest) : Prop :=
  forall w, exists e w', process_cr E s w = (Raise e, w').




(** ** Change-request numbers (ChangeRequest.generate_cr_number) *)

Fixpoint zeros (k : nat) : string :=
  match k with
  | O => EmptyString
  | S k' => String "0" (zeros k')
  end.

(** [f'{n:0Wd}'] for a natural number: decimal digits, padded with zeros
    on the left up to the width, never truncated. *)
Definition format_0d (width n : nat) : string :=
  let digits := NilEmpty.string_of_uint (Nat.to_uint n) in
  zeros (width - String.length digits) +:+ digits.

(** The date fields of a [datetime]. *)
Record Date : Type := mkDate {
  year : nat;
  month : nat;
  day : nat
}.

(** [strftime('%Y%m%d')]: month and day have two digits; the year is
    written in decimal as it is, four digits from the year 1000 on and fewer
    before, where the C library that formats it does not pad. *)
Definition strftime_Ymd (d : Date) : string :=
  format_0d 1 (year d) +:+ format_0d 2 (month d) +:+ format_0d 2 (day d).

(** [cr_number LIKE 'prefix%'] for a prefix without wildcard characters,
    as the prefix of a date is.  The comparison ignores the case of ASCII
    letters on some databases ([ci]) and not on others. *)
Definition sql_like_prefix (ci : bool) (pre s : string) : bool :=
  if ci then String.prefix (lower pre) (lower s) else String.prefix pre s.

(** The count of the query of [generate_cr_number]. *)
Definition count_with_prefix (ci : bool) (pre : string)
    (table : list ChangeRequest) : nat :=
  length (List.filter (fun cr => sql_like_prefix ci pre (cr_number cr)) table).

Definition generate_cr_number (ci : bool) (today : Date)
    (table : list ChangeRequest) : string :=
  let today := strftime_Ymd today in
  let pre := "CR-" +:+ today in
  let count := count_with_prefix ci pre table in
  pre +:+ "-" +:+ format_0d 4 (count + 1).

(** A caller creates a change request with a generated number and persists
    it before the next one is created. *)
Definition create_cr (ci : bool) (today : Date) (fields : ChangeRequest)
    (table : list ChangeRequest) : list ChangeRequest :=
  table ++ [set_cr_number fields (generate_cr_number ci today table)].

Fixpoint create_all (ci : bool) (today : Date) (new : list ChangeRequest)
    (table : list ChangeRequest) : list ChangeRequest :=
  match new with
  | [] => table
  | fields :: rest => create_all ci today rest (create_cr ci today fields table)
  end.

(** The number with sequence [k] on a day. *)
Definition cr_number_of (today : Date) (k : nat) : string :=
  "CR-" +:+ strftime_Ymd today +:+ "-" +:+ format_0d 4 k.

(** Reading a sequence back. *)
Definition parse_nat (s : string) : option nat :=
  option_map Nat.of_uint (NilEmpty.uint_of_string s).

(** Sequences below this bound are written with exactly four digits. *)
Definition four_digits : nat := 10 * 10 * 10 * 10.

(** ** Sample data for the concrete cases *)

Definition hour : Z := 3600 * usec_per_second.

Definition sample_cr (id : Z) (st : CRStatus) (deadline : option datetime)
    : ChangeRequest :=
  mkCR id (cr_number_of (mkDate 2024 1 1) (Z.to_nat id))
    (mkProject 1 (Some 7)) st 10 None None None
    None deadline None None false false None None None None None None None
    None None.

Definition fixed_clock (now : Z) (adm : list Z) : Env :=
  mkEnv (fun _ => now) 0 adm (fun _ => false).

Definition sample_user (id : Z) (name : string) : User :=
  mkUser id (Some (mkRole name [])) [mkMembership 1 true].

(** A table for the concrete cases: one request six hours before its
    deadline, one four hours past it. *)
Definition sample_table : list ChangeRequest :=
  [sample_cr 1 APPROVED (Some (Aware (100 * hour)));
   sample_cr 2 IN_PROGRESS (Some (Aware (90 * hour)))].

(** ** Further definitions for the sweep *)

(** The notification that [send_sla_warning_email] dispatches for a change
    request. *)
Definition warning_for (cr : ChangeRequest) : Notification :=
  mkNotification SlaWarning (cr_id cr)
    (remove_dups (opt_to_list (implementer_id cr)
                  ++ opt_to_list (approver_id cr) ++ [requester_id cr])).

(** At the instant [now] the deadline lies ahead by at most 24 hours and
    neither flag is set. *)
Definition due_soon (now : Z) (cr : ChangeRequest) : bool :=
  match implementation_deadline cr with
  | Some d =>
      negb (is_sla_breached cr) && negb (sla_warning_sent cr)
      && (0 <? usec_of d - now) && (usec_of d - now <=? seconds_24h)
  | None => false
  end.

(** The deadline can be compared with the aware current time, or the
    comparison is not made because the breach is already recorded. *)
Definition comparable (cr : ChangeRequest) : bool :=
  match implementation_deadline cr with
  | Some (Naive _) => is_sla_breached cr
  | _ => true
  end.

(** The object that the loop body leaves for a change request of the query
    at the instant [now], when no admin is configured: an overdue request
    gets both flags, one that is due soon gets the warning flag. *)
Definition swept (now : Z) (cr : ChangeRequest) : ChangeRequest :=
  match implementation_deadline cr with
  | Some d =>
      if is_sla_breached cr then cr
      else if usec_of d <? now then
        set_sla_warning_sent (set_is_sla_breached cr true) true
      else if due_soon now cr then set_sla_warning_sent cr true
      else cr
  | None => cr
  end.

(** The loop body commits for a change request when it sets the warning
    flag, after either sender. *)
Definition commits_for (now : Z) (cr : ChangeRequest) : bool :=
  negb (sla_warning_sent cr) && sla_warning_sent (swept now cr).

(** The session after the loop, for a query that raised nothing: a commit
    writes every object visited so far, so the row stored for a change
    request is its swept state when the body committed for it or for a
    request after it, and is as loaded otherwise. *)
Fixpoint swept_rows (now : Z) (query : list ChangeRequest) : list Row :=
  match query with
  | [] => []
  | cr :: rest =>
      mkRow (swept now cr)
        (if existsb (commits_for now) (cr :: rest) then swept now cr else cr)
      :: swept_rows now rest
  end.

(** The table after such a sweep.  What the body assigned without a commit
    after it is in the table only when pending changes are kept. *)
Fixpoint swept_table (keep_pending : bool) (now : Z)
    (table : list ChangeRequest) : list ChangeRequest :=
  match table with
  | [] => []
  | cr :: rest =>
      (if is_active_cr cr
          && (keep_pending
              || existsb (commits_for now)
                   (List.filter is_active_cr (cr :: rest)))
       then swept now cr else cr)
      :: swept_table keep_pending now rest
  end.

(** The sweep leaves alone the rows outside its query and only raises flags
    on the others. *)
Definition sweep_touch (cr cr' : ChangeRequest) : Prop :=
  flags_grow cr cr' /\ (is_active_cr cr = false -> cr' = cr).

(** The outcomes of successive sweeps, each one run on the table that the
    one before left. *)
Fixpoint sweep_outcomes (runs : list (Env * bool))
    (table : list ChangeRequest) : list (option exn) :=
  match runs with
  | [] => []
  | (E, keep_pending) :: rest =>
      let r := check_sla_deadlines E table in
      raised r :: sweep_outcomes rest (write_back keep_pending table (session r))
  end.

(** An environment with an admin to mail, whose clock is past [t]. *)
Definition admin_after (t : Z) (E : Env) : Prop :=
  admins E <> [] /\ forall n, t < clock E n.

(** ** Roles and logins (app/models/role.py, app/models/user.py)

    A permission is identified by its name, which the table keeps unique,
    so the list of a role's permissions is the list of their names. *)

(** [permission in self.permissions] *)
Definition list_contains (x : string) (l : list string) : bool :=
  existsb (fun y => String.eqb y x) l.

(** [Role.add_permission] *)
Definition add_permission (r : Role) (permission : string) : Role :=
  if list_contains permission (permissions r) then r
  else mkRole (role_name r) (permissions r ++ [permission]).

(** [list.remove(x)]: the first occurrence goes. *)
Fixpoint list_remove (x : string) (l : list string) : list string :=
  match l with
  | [] => []
  | y :: l' => if String.eqb y x then l' else y :: list_remove x l'
  end.

(** [Role.remove_permission] *)
Definition remove_permission (r : Role) (permission : string) : Role :=
  if list_contains permission (permissions r)
  then mkRole (role_name r) (list_remove permission (permissions r))
  else r.

(** The login columns of [User], as loaded from the table. *)
Record LoginColumns : Type := mkLogin {
  failed_login_attempts : Z;
  is_locked : bool
}.

(** [User.increment_failed_login] *)
Definition increment_failed_login (u : LoginColumns) : LoginColumns :=
  let attempts := failed_login_attempts u + 1 in
  if 5 <=? attempts then mkLogin attempts true
  else mkLogin attempts (is_locked u).

(** [User.reset_failed_login] *)
Definition reset_failed_login (u : LoginColumns) : LoginColumns :=
  mkLogin 0 false.

(** [n] failed logins in a row. *)
Fixpoint failed_logins (n : nat) (u : LoginColumns) : LoginColumns :=
  match n with
  | O => u
  | S n' => failed_logins n' (increment_failed_login u)
  end.

(** ** The login route *)

(** How [auth.login] answers a posted form for an existing user. *)
Inductive LoginOutcome : Type :=
  | AccountLocked
  | AccountInactive
  | PasswordAccepted
  | InvalidPassword.

(** The branch of [auth.login] for a user found by email: [password_ok] is
    the answer of [check_password], [is_active] the column of that name,
    which the route reads and never writes. *)
Definition login (password_ok is_active : bool) (u : LoginColumns)
    : LoginOutcome * LoginColumns :=
  if password_ok then
    if is_locked u then (AccountLocked, u)
    else if negb is_active then (AccountInactive, u)
    else (PasswordAccepted, reset_failed_login u)
  else (InvalidPassword, increment_failed_login u).

(** Posted forms, one after the other, for the same user. *)
Fixpoint logins (forms : list (bool * bool)) (u : LoginColumns)
    : list LoginOutcome * LoginColumns :=
  match forms with
  | [] => ([], u)
  | (password_ok, is_active) :: rest =>
      let r := login password_ok is_active u in
      let rs := logins rest (snd r) in
      (fst r :: fst rs, snd rs)
  end.

(** ** Numbers of a day, across the table *)

(** The requests of the table that carry the day's prefix are numbered 1
    to their count, in order, as [generate_cr_number] numbers them. *)
Definition numbered_in_sequence (ci : bool) (today : Date)
    (table : list ChangeRequest) : Prop :=
  map cr_number
    (List.filter
       (fun cr => sql_like_prefix ci ("CR-" +:+ strftime_Ymd today)
                    (cr_number cr)) table)
  = map (cr_number_of today)
      (seq 1 (count_with_prefix ci ("CR-" +:+ strftime_Ymd today) table)).

(** * Properties *)

(** ** Guards *)

Lemma CRStatus_eqb_eq (a b : CRStatus) : CRStatus_eqb a b = true <-> a = b.
Proof. destruct a, b; simpl; split; congruence. Qed.

Lemma status_in_In (s : CRStatus) (l : list CRStatus) :
  status_in s l = true <-> In s l.
Proof.
  unfold status_in. rewrite existsb_exists. split.
  - intros (x & Hx & Heq). apply CRStatus_eqb_eq in Heq. now subst.
  - intros H. exists s. split; [assumption | now apply CRStatus_eqb_eq].
Qed.


Lemma has_permission_holds (u : User) (p : string) :
  has_permission u p = true <->
  exists r, role u = Some r /\ In p (permissions r).
Proof.
  unfold has_permission, role_has_permission.
  destruct (role u) as [r|].
  - rewrite existsb_exists. split.
    + intros (x & Hx & Heq). apply String.eqb_eq in Heq. subst.
      exists r. auto.
    + intros (r' & Hr & Hin). inversion Hr; subst.
      exists p. split; [assumption | apply String.eqb_refl].
  - split; [discriminate | intros (r & Hr & _); discriminate].
Qed.

(** C6: [can_edit] is true exactly when the status is outside
    {Approved, Implemented, Closed, Rejected, RolledBack} and the actor is
    the requester or holds the system-management capability. *)
Theorem can_edit_characterization (cr : ChangeRequest) (u : User) :
  can_edit cr u = true <->
  ~ In (status cr) [APPROVED; IMPLEMENTED; CLOSED; REJECTED; ROLLED_BACK]
  /\ (requester_id cr = user_id u \/ holds_manage_system u).
Proof.
  unfold can_edit, holds_manage_system, non_editable_statuses.
  rewrite <- has_permission_holds.
  destruct (status_in (status cr) _) eqn:Hs.
  - apply status_in_In in Hs. split; [discriminate | tauto].
  - assert (Hn : ~ In (status cr)
                [APPROVED; IMPLEMENTED; CLOSED; REJECTED; ROLLED_BACK]).
    { intros Hin. apply status_in_In in Hin. congruence. }
    destruct (requester_id cr =? user_id u) eqn:Hr.
    + apply Z.eqb_eq in Hr. tauto.
    + apply Z.eqb_neq in Hr.
      destruct (has_permission u "manage_system"); intuition congruence.
Qed.

(** Once the content is frozen, nobody edits, whatever the role. *)
Lemma can_edit_frozen (cr : ChangeRequest) (u : User) :
  In (status cr) [APPROVED; IMPLEMENTED; CLOSED; REJECTED; ROLLED_BACK] ->
  can_edit cr u = false.
Proof.
  intros Hin. apply status_in_In in Hin.
  unfold can_edit, non_editable_statuses. now rewrite Hin.
Qed.


Lemma has_project_access_belongs (u : User) (p : Project) :
  ~ role_is u "admin" ->
  (has_project_access u p = true <-> belongs_to_project u p).
Proof.
  intros Hna. unfold has_project_access, is_admin, has_role.
  assert (Hr : match role u with
               | Some r => String.eqb (role_name r) "admin"
               | None => false
               end = false).
  { unfold role_is in Hna. destruct (role u) as [r|]; [| reflexivity].
    destruct (String.eqb (role_name r) "admin") eqn:He; [| reflexivity].
    apply String.eqb_eq in He. exfalso. apply Hna. simpl. now rewrite He. }
  rewrite Hr. rewrite existsb_exists. unfold belongs_to_project.
  split; intros (m & Hin & H); exists m; split; try assumption.
  - apply andb_true_iff in H. destruct H as [H1 H2].
    apply Z.eqb_eq in H1. auto.
  - destruct H as [H1 H2]. rewrite H2, andb_true_r. now apply Z.eqb_eq.
Qed.

(** C8: access is granted exactly per role: admin iff creator of the
    parent project; requester iff own request and project member;
    implementer iff project member and status in {Approved, InProgress,
    Implemented, Closed, RolledBack}; approver iff project member; any other
    role is denied. *)
Theorem can_access_cr_matrix (u : User) (cr : ChangeRequest) :
  can_access_cr u cr = true <-> access_matrix u cr.
Proof.
  unfold can_access_cr, access_matrix.
  fold (role_is u "admin") (role_is u "requester")
       (role_is u "implementer") (role_is u "approver").
  assert (Hex : forall a b : string, a <> b -> role_is u a -> ~ role_is u b).
  { unfold role_is. intros a b Hab Ha Hb. congruence. }
  case_bool_decide as Hadm.
  - split.
    + intros H. left. split; [assumption |].
      unfold option_Z_eqb in H.
      destruct (created_by_id (project cr)); [| discriminate].
      apply Z.eqb_eq in H. now subst.
    + intros [[_ H] | [[H _] | [[H _] | [H _]]]];
        try (exfalso; eapply Hex; [| exact Hadm | exact H]; discriminate).
      rewrite H. simpl. apply Z.eqb_refl.
  - pose proof (has_project_access_belongs u (project cr) Hadm) as Hacc.
    destruct (has_project_access u (project cr)) eqn:Hp; cbn [negb].
    + assert (Hb : belongs_to_project u (project cr)) by (now apply Hacc).
      case_bool_decide as Hreq.
      { rewrite Z.eqb_eq. split; [tauto |].
        intros [[H _] | [[_ [H _]] | [[H _] | [H _]]]]; try assumption;
          try contradiction;
          exfalso; (eapply Hex; [| exact Hreq | exact H]; discriminate). }
      case_bool_decide as Himp.
      { rewrite status_in_In. split; [tauto |].
        intros [[H _] | [[H _] | [[_ [_ H]] | [H _]]]]; try assumption;
          try contradiction;
          exfalso; (eapply Hex; [| exact Himp | exact H]; discriminate). }
      case_bool_decide as Happ.
      { split; [tauto | reflexivity]. }
      split; [discriminate | tauto].
    + split; [discriminate |].
      assert (Hnb : ~ belongs_to_project u (project cr)).
      { intros Hb. apply Hacc in Hb. discriminate. }
      tauto.
Qed.

(** An unrecognised role, or no role at all, is denied. *)
Lemma can_access_cr_unrecognized (u : User) (cr : ChangeRequest) :
  ~ role_is u "admin" -> ~ role_is u "requester" ->
  ~ role_is u "implementer" -> ~ role_is u "approver" ->
  can_access_cr u cr = false.
Proof.
  intros H1 H2 H3 H4. unfold can_access_cr.
  fold (role_is u "admin") (role_is u "requester")
       (role_is u "implementer") (role_is u "approver").
  rewrite !bool_decide_eq_false_2 by assumption.
  now destruct (has_project_access u (project cr)).
Qed.

(** ** Transition methods *)

Lemma end_of_day_same_day (t : Z) :
  end_of_day_usec t / usec_per_day = t / usec_per_day
  /\ end_of_day_usec t mod usec_per_day
     = 86399 * usec_per_second + t mod usec_per_second.
Proof.
  unfold end_of_day_usec, usec_per_day, usec_per_second.
  pose proof (Z.mod_pos_bound t 1000000 ltac:(lia)) as Hm.
  set (q := t / (86400 * 1000000)). set (m := t mod 1000000) in *.
  replace (86400 * 1000000 * q + (23 * 3600 + 59 * 60 + 59) * 1000000 + m)
    with ((86399 * 1000000 + m) + q * (86400 * 1000000)) by lia.
  rewrite Z.div_add, Z.mod_add by lia.
  rewrite Z.div_small, Z.mod_small by lia. lia.
Qed.

(** C7, as the code has it: on a Draft, [submit] sets the status to
    PendingApproval, [submitted_at] to the clock reading, and
    [sla_deadline] to 23:59:59 of the day of the next clock reading,
    whatever [sla_deadline] held before; no other column changes.  On any
    other status it changes nothing. *)
Theorem submit_effect (E : Env) (cr : ChangeRequest) (w : World) :
  (status cr = DRAFT ->
   exists cr',
     submit E cr w = (Ok cr', tick 2 w)
     /\ status cr' = PENDING_APPROVAL
     /\ submitted_at cr' = Some (Aware (clock E (ticks w)))
     /\ sla_deadline cr'
        = Some (Aware (end_of_day_usec (clock E (S (ticks w)))))
     /\ untouched_by_submit cr cr')
  /\ (status cr <> DRAFT -> submit E cr w = (Ok cr, w)).
Proof.
  unfold submit. split; intros Hs.
  - rewrite Hs. simpl. eexists. split; [reflexivity |].
    unfold untouched_by_submit. simpl. repeat split; reflexivity.
  - destruct (CRStatus_eqb (status cr) DRAFT) eqn:He; [| reflexivity].
    apply CRStatus_eqb_eq in He. contradiction.
Qed.

Lemma submit_effect_witness :
  exists cr',
    submit (fixed_clock (30 * hour) []) (sample_cr 1 DRAFT None)
      initial_world = (Ok cr', tick 2 initial_world)
    /\ sla_deadline cr' = Some (Aware (48 * hour - usec_per_second)).
Proof.
  destruct (submit_effect (fixed_clock (30 * hour) [])
              (sample_cr 1 DRAFT None) initial_world) as [H _].
  destruct (H eq_refl) as (cr' & He & _ & _ & Hd & _).
  exists cr'. split; [exact He | exact Hd].
Defined.

(** C7, the clause about an existing deadline: a Draft that already has
    an [sla_deadline] gets it overwritten. *)
Lemma submit_overwrites_sla_deadline :
  let cr := set_sla_deadline (sample_cr 1 DRAFT None) (Some (Aware 0)) in
  status cr = DRAFT
  /\ sla_deadline cr = Some (Aware 0)
  /\ exists cr' w',
       submit (fixed_clock (30 * hour) []) cr initial_world = (Ok cr', w')
       /\ sla_deadline cr' = Some (Aware (48 * hour - usec_per_second))
       /\ sla_deadline cr' <> sla_deadline cr.
Proof.
  cbv. split; [reflexivity |]. split; [reflexivity |].
  eexists. eexists. split; [reflexivity |]. split; [reflexivity |].
  discriminate.
Qed.

(** Each method writes its target status; only [submit] looks at the
    current one. *)
Lemma call_status (E : Env) (t : Transition) (cr : ChangeRequest) (w : World) :
  exists cr' w',
    call E t cr w = (Ok cr', w')
    /\ status cr' = match t with
                    | CallSubmit =>
                        if CRStatus_eqb (status cr) DRAFT
                        then PENDING_APPROVAL else status cr
                    | _ => target t
                    end
    /\ is_sla_breached cr' = is_sla_breached cr
    /\ sla_warning_sent cr' = sla_warning_sent cr
    /\ cr_id cr' = cr_id cr.
Proof.
  destruct t; simpl; unfold submit, approve, reject, start_implementation,
    complete_implementation, close, rollback;
    try destruct (CRStatus_eqb (status cr) DRAFT);
    do 2 eexists; (split; [reflexivity |]); simpl; auto.
Qed.

Lemma graph_edge_rank (a b : CRStatus) :
  graph_edge a b = true -> (rank a < rank b)%nat.
Proof. destruct a, b; simpl; intros H; try discriminate; lia. Qed.

Lemma status_guard_edge (t : Transition) (s : CRStatus) :
  status_guard t s = true -> graph_edge s (target t) = true.
Proof. destruct t, s; simpl; intros H; try discriminate; reflexivity. Qed.

Lemma follows_graph_rank (s : CRStatus) (l : list CRStatus) :
  follows_graph s l = true -> Forall (fun x => (rank s < rank x)%nat) l.
Proof.
  revert s. induction l as [| a l IH]; intros s H; [constructor |].
  simpl in H. apply andb_true_iff in H. destruct H as [He Hl].
  apply graph_edge_rank in He. constructor; [assumption |].
  specialize (IH a Hl). rewrite Forall_forall in *.
  intros x Hx. specialize (IH x Hx). lia.
Qed.

Lemma follows_graph_NoDup (s : CRStatus) (l : list CRStatus) :
  follows_graph s l = true -> NoDup (s :: l).
Proof.
  revert s. induction l as [| a l IH]; intros s H.
  - constructor; [intros Hin; inversion Hin | constructor].
  - pose proof (follows_graph_rank _ _ H) as Hr.
    simpl in H. apply andb_true_iff in H. destruct H as [_ Hl].
    constructor; [| now apply IH].
    intros Hin. rewrite Forall_forall in Hr.
    apply Hr in Hin. lia.
Qed.

(** C4, as the code has it: the methods themselves do not look at the
    current status (only [submit] does), so forward movement is a property
    of guarded call sequences: when every call is made in a status that the
    transition table allows for it, every call is executed, each status
    change follows an edge of the graph, and no status is visited twice. *)
Theorem guarded_calls_move_forward (E : Env) (ts : list Transition)
    (cr : ChangeRequest) (w : World) :
  guarded_calls ts (status cr) = true ->
  let l := snd (fst (run_calls E ts cr w)) in
  length l = length ts
  /\ follows_graph (status cr) l = true
  /\ NoDup (status cr :: l).
Proof.
  intros Hg. cbv zeta.
  assert (H : length (snd (fst (run_calls E ts cr w))) = length ts
              /\ follows_graph (status cr)
                   (snd (fst (run_calls E ts cr w))) = true).
  { revert cr w Hg. induction ts as [| t ts IH]; intros cr w Hg.
    - simpl. auto.
    - simpl in Hg. apply andb_true_iff in Hg. destruct Hg as [Hs Hrest].
      destruct (call_status E t cr w) as (cr' & w' & Hc & Hst & _).
      assert (Htgt : status cr' = target t).
      { rewrite Hst. destruct t; try reflexivity.
        simpl in Hs. now rewrite Hs. }
      simpl. rewrite Hc.
      rewrite <- Htgt in Hrest. specialize (IH cr' w' Hrest).
      destruct (run_calls E ts cr' w') as [[c l] w'']. simpl in *.
      destruct IH as [IH1 IH2]. split; [now rewrite IH1 |].
      rewrite IH2, andb_true_r. rewrite Htgt.
      now apply status_guard_edge. }
  destruct H as [H1 H2]. repeat split; try assumption.
  now apply follows_graph_NoDup.
Qed.

Lemma guarded_calls_move_forward_witness :
  let ts := [CallSubmit;
             CallApprove (sample_user 2 "approver") None;
             CallStartImplementation (sample_user 3 "implementer");
             CallCompleteImplementation;
             CallClose (sample_user 2 "approver") None None;
             CallRollback (sample_user 4 "admin") None] in
  let l := snd (fst (run_calls (fixed_clock 0 []) ts
                       (sample_cr 1 DRAFT None) initial_world)) in
  length l = length ts
  /\ follows_graph DRAFT l = true
  /\ NoDup (DRAFT :: l).
Proof.
  intros ts.
  apply (guarded_calls_move_forward (fixed_clock 0 []) ts
           (sample_cr 1 DRAFT None) initial_world).
  reflexivity.
Defined.

(** C4, as stated: a sequence of public calls that brings a closed change
    request back to Approved, with no rollback in it. *)
Lemma approve_after_close_reenters_approved :
  let ts := [CallApprove (sample_user 2 "approver") None;
             CallStartImplementation (sample_user 3 "implementer");
             CallCompleteImplementation;
             CallClose (sample_user 2 "approver") None None;
             CallApprove (sample_user 2 "approver") None] in
  snd (fst (run_calls (fixed_clock 0 []) ts
              (sample_cr 1 PENDING_APPROVAL None) initial_world))
  = [APPROVED; IN_PROGRESS; IMPLEMENTED; CLOSED; APPROVED]
  /\ graph_edge CLOSED APPROVED = false
  /\ (rank APPROVED < rank CLOSED)%nat.
Proof. cbv. repeat split; lia. Qed.

(** ** SLA evaluator *)

Ltac unfold_monad :=
  unfold bind, ret, lift, logger, dispatch, db_commit, now_utc, now_local.

(** What the warning predicate computes: only the upper bound of the
    window is tested, together with a time left that is not zero. *)
Lemma is_deadline_warning_needed_spec (E : Env) (cr : ChangeRequest)
    (w : World) :
  exists b w',
    is_deadline_warning_needed E cr w = (Ok b, w')
    /\ outbox w' = outbox w /\ commits w' = commits w /\ log w' = log w
    /\ (b = true <->
        exists d,
          implementation_deadline cr = Some d
          /\ sla_warning_sent cr = false /\ is_sla_breached cr = false
          /\ usec_of d - clock E (ticks w) <> 0
          /\ usec_of d - clock E (ticks w) <= seconds_24h).
Proof.
  unfold is_deadline_warning_needed, time_until_deadline.
  destruct (implementation_deadline cr) as [d|]; simpl.
  - destruct (sla_warning_sent cr); simpl.
    { do 2 eexists. split; [reflexivity |]. repeat split; try discriminate.
      intros (d' & _ & H & _). discriminate. }
    destruct (is_sla_breached cr); simpl.
    { do 2 eexists. split; [reflexivity |]. repeat split; try discriminate.
      intros (d' & _ & _ & H & _). discriminate. }
    unfold_monad.
    assert (Hsub : dt_sub match d with Naive t => Aware t | Aware t => Aware t end
                     (Aware (clock E (ticks w)))
                   = Ok (usec_of d - clock E (ticks w))).
    { destruct d; reflexivity. }
    rewrite Hsub. simpl.
    set (left := usec_of d - clock E (ticks w)).
    destruct (left =? 0) eqn:Hz; simpl.
    { apply Z.eqb_eq in Hz. do 2 eexists. split; [reflexivity |].
      repeat split; try discriminate.
      intros (d' & Hd & _ & _ & Hn & _). inversion Hd; subst d'.
      fold left in Hn. contradiction. }
    apply Z.eqb_neq in Hz.
    destruct (left <=? seconds_24h) eqn:Hle.
    + apply Z.leb_le in Hle. do 2 eexists. split; [reflexivity |].
      repeat split. intros _. exists d. auto.
    + apply Z.leb_gt in Hle. do 2 eexists. split; [reflexivity |].
      repeat split; try discriminate.
      intros (d' & Hd & _ & _ & _ & Hb). inversion Hd; subst d'.
      fold left in Hb. lia.
  - do 2 eexists. split; [reflexivity |]. repeat split; try discriminate.
    intros (d & H & _). discriminate.
Qed.

(** C2, at a deadline that has passed: with the deadline one hour in the
    past and neither flag set, the warning predicate answers true. *)
Theorem is_deadline_warning_needed_past_deadline :
  let cr := sample_cr 1 APPROVED (Some (Aware (100 * hour))) in
  let E := fixed_clock (101 * hour) [] in
  fst (is_deadline_warning_needed E cr initial_world) = Ok true
  /\ fst (time_until_deadline E cr initial_world) = Ok (Some (- hour)).
Proof. cbv. split; reflexivity. Qed.

(** ** The loop body of the sweep *)

Lemma with_flags_id (c : ChangeRequest) :
  with_flags c (is_sla_breached c) (sla_warning_sent c) = c.
Proof. destruct c; reflexivity. Qed.

Lemma flags_grow_refl (c : ChangeRequest) : flags_grow c c.
Proof.
  exists (is_sla_breached c), (sla_warning_sent c).
  rewrite with_flags_id. auto.
Qed.

Lemma flags_grow_breached (c : ChangeRequest) :
  flags_grow c (set_is_sla_breached c true).
Proof.
  exists true, (sla_warning_sent c). destruct c; simpl. auto.
Qed.

Lemma flags_grow_warned (c : ChangeRequest) :
  flags_grow c (set_sla_warning_sent c true).
Proof.
  exists (is_sla_breached c), true. destruct c; simpl. auto.
Qed.

Lemma flags_grow_both (c : ChangeRequest) :
  flags_grow c (set_sla_warning_sent (set_is_sla_breached c true) true).
Proof. exists true, true. auto. Qed.

Create HintDb flags.
#[local] Hint Resolve flags_grow_refl flags_grow_breached flags_grow_warned
  flags_grow_both : flags.

Lemma time_until_deadline_run (E : Env) (cr : ChangeRequest) (w : World) :
  time_until_deadline E cr w
  = match implementation_deadline cr with
    | Some d => (Ok (Some (usec_of d - clock E (ticks w))), tick 1 w)
    | None => (Ok None, w)
    end.
Proof.
  unfold time_until_deadline.
  destruct (implementation_deadline cr) as [[t|t]|]; reflexivity.
Qed.

Ltac break_match_hyp H :=
  match type of H with
  | context [match ?x with _ => _ end] =>
      match x with
      | context [match _ with _ => _ end] => fail 1
      | _ => destruct x eqn:?
      end
  end.

(** Unfold the body in [H] and split on every test it makes. *)
Ltac body_cases H :=
  unfold process_cr, check_sla_breach, is_deadline_warning_needed,
    send_sla_breach_email, send_sla_warning_email in H;
  unfold bind, ret, lift, logger, dispatch, db_commit, now_utc, now_local,
    dt_gt, dt_sub, truthy, is_set in H;
  repeat (first [rewrite time_until_deadline_run in H | break_match_hyp H];
          simpl in *; try discriminate);
  inversion H; subst; clear H; simpl.

Lemma process_cr_summary (E : Env) (cr : ChangeRequest) (w : World)
    (res : Result ChangeRequest) (w' : World) :
  process_cr E cr w = (res, w') -> body_summary E cr w res w'.
Proof.
  intros H. unfold body_summary. body_cases H.
  all: try (exists []; rewrite app_nil_r;
            repeat split; auto with flags; congruence).
  all: try (eexists [_]; repeat split; eauto 7 with flags).
  all: try (intros Hc; specialize (Hc (commits w)); congruence).
  all: right; eexists; split; [reflexivity |]; split; [reflexivity |];
    apply negb_true_iff; assumption.
Qed.

(** ** The loop of the sweep *)

Lemma maybe_flushed_refl : forall l : list Row, Forall2 maybe_flushed l l.
Proof. induction l; constructor; [left; reflexivity | assumption]. Qed.

Lemma maybe_flushed_flush (l : list Row) :
  Forall2 maybe_flushed l (map flush l).
Proof. induction l; simpl; constructor; [right; reflexivity | assumption]. Qed.

Lemma maybe_flushed_trans (a b c : list Row) :
  Forall2 maybe_flushed a b -> Forall2 maybe_flushed b c ->
  Forall2 maybe_flushed a c.
Proof.
  intros Hab. revert c. induction Hab as [| x y a b Hxy Hab IH]; intros c Hbc.
  - inversion Hbc. constructor.
  - inversion Hbc as [| y' z b' c' Hyz Hbc']; subst.
    constructor; [| now apply IH].
    destruct Hxy as [-> | ->], Hyz as [-> | ->]; unfold maybe_flushed;
      destruct x; simpl; auto.
Qed.

Lemma row_summary_flushed (E : Env) (cr : ChangeRequest) (r r' : Row)
    (f : list Notification) :
  maybe_flushed r r' -> row_summary E cr r f -> row_summary E cr r' f.
Proof.
  intros [-> | ->] H; [assumption |].
  destruct H as (Hs & Ho & Hf). unfold row_summary. simpl.
  repeat split; try assumption.
  destruct Hf as [-> | (n & -> & Ha & Hw & Hc)]; [now left |].
  right. exists n. repeat split; try assumption; now apply Hc.
Qed.

Lemma row_summary_revert (E : Env) (cr : ChangeRequest) (r : Row)
    (f : list Notification) :
  row_summary E cr r f -> row_summary E cr (revert r) f.
Proof.
  intros (Hs & Ho & Hf). unfold row_summary. simpl.
  repeat split; try assumption.
  destruct Hf as [-> | (n & -> & Ha & Hw & Hc)]; [now left |].
  right. exists n. repeat split; try assumption; now apply Hc.
Qed.

Lemma row_summary_untouched (E : Env) (l : list ChangeRequest) :
  Forall3 (row_summary E) l (map load l) (map (fun _ => []) l).
Proof.
  induction l; simpl; constructor; [| assumption].
  unfold row_summary. simpl. auto using flags_grow_refl.
Qed.

Lemma concat_nils {A B} (l : list A) :
  concat (map (fun _ => @nil B) l) = [].
Proof. induction l; simpl; auto. Qed.

(** The loop, summarised: the rows visited before are kept, possibly
    flushed; every change request of the list has its row, related to it by
    [row_summary]; the outbox grows by the notifications of the rows. *)
Lemma sweep_loop_summary (E : Env) (l : list ChangeRequest) :
  forall (V : list Row) (w : World) rows exc w',
    sweep_loop E V (map load l) w = (rows, exc, w') ->
    exists V' rows_l fs,
      rows = V' ++ rows_l
      /\ Forall2 maybe_flushed V V'
      /\ Forall3 (row_summary E) l rows_l fs
      /\ outbox w' = outbox w ++ concat fs.
Proof.
  induction l as [| cr l IH]; intros V w rows exc w' H; simpl in H.
  - injection H as <- <- <-. exists V, [], []. rewrite !app_nil_r.
    repeat split; auto using maybe_flushed_refl. constructor.
  - destruct (process_cr E cr w) as [[cr' | e] w1] eqn:Hb.
    + pose proof (process_cr_summary _ _ _ _ _ Hb) as (f & Hout & Hf & Hg & Hc & Hfc).
      apply IH in H. destruct H as (V1 & rows_l & fs & -> & HV & Hrows & Hout').
      (* split the visited rows into the old ones and the new one *)
      assert (Hsplit : exists V' r',
                 V1 = V' ++ [r'] /\ Forall2 maybe_flushed V V'
                 /\ row_summary E cr r' f).
      { assert (Hnew : row_summary E cr (mkRow cr' cr) f
                       \/ (commits w < commits w1)%nat).
        { destruct Hf as [-> | (n & -> & Ha & Hw)].
          - left. unfold row_summary. simpl. auto using flags_grow_refl.
          - right. rewrite Hfc by discriminate. lia. }
        assert (Hfl : row_summary E cr (flush (mkRow cr' cr)) f).
        { unfold row_summary. simpl. repeat split; try assumption.
          destruct Hf as [-> | (n & -> & Ha & Hw)]; [now left |].
          right. exists n. repeat split; try assumption;
            destruct Hc as [Hc | [_ Hc]]; try assumption;
            (rewrite Hfc in Hc by discriminate; lia). }
        destruct (commits w <? commits w1)%nat eqn:Hlt.
        - rewrite map_app in HV. simpl in HV.
          apply Forall2_app_inv_l in HV.
          destruct HV as (V' & R & HV' & HR & ->).
          inversion HR as [| x y lx ly Hxy Hnil]; subst. inversion Hnil; subst.
          exists V', y. repeat split.
          + eapply maybe_flushed_trans; [apply maybe_flushed_flush | exact HV'].
          + eapply row_summary_flushed; [exact Hxy | exact Hfl].
          + eapply row_summary_flushed; [exact Hxy | exact Hfl].
          + eapply row_summary_flushed; [exact Hxy | exact Hfl].
        - apply Nat.ltb_ge in Hlt.
          apply Forall2_app_inv_l in HV.
          destruct HV as (V' & R & HV' & HR & ->).
          inversion HR as [| x y lx ly Hxy Hnil]; subst. inversion Hnil; subst.
          destruct Hnew as [Hnew | Hnew]; [| lia].
          exists V', y. repeat split; try assumption;
            eapply row_summary_flushed; try exact Hxy; exact Hnew. }
      destruct Hsplit as (V' & r' & -> & HV' & Hr').
      exists V', (r' :: rows_l), (f :: fs). repeat split.
      * now rewrite <- app_assoc.
      * assumption.
      * constructor; assumption.
      * simpl. rewrite Hout', Hout. now rewrite app_assoc.
    + injection H as <- <- <-.
      pose proof (process_cr_summary _ _ _ _ _ Hb) as (f & Hout & Hf & Hc & Hfe).
      exists V, (load cr :: map load l), (f :: map (fun _ => []) l).
      repeat split; auto using maybe_flushed_refl.
      * constructor; [| apply row_summary_untouched].
        unfold row_summary. simpl. repeat split; auto using flags_grow_refl.
        destruct Hf as [-> | (n & -> & Ha & Hw)]; [now left |].
        right. exists n. split; [reflexivity |].
        split; [assumption |]. split; [assumption |].
        intros Hs. specialize (Hfe Hs). discriminate.
      * simpl. rewrite concat_nils, app_nil_r. assumption.
Qed.

(** ** One sweep over the table *)

Lemma row_summary_entry (E : Env) (keep : bool) (cr : ChangeRequest)
    (r : Row) (f : list Notification) :
  row_summary E cr r f -> entry_summary E cr (next_state keep r) f.
Proof.
  intros (Hs & Ho & Hf). unfold entry_summary, next_state.
  split; [destruct keep; assumption |].
  destruct Hf as [-> | (n & -> & Ha & Hw & Hc)]; [now left |].
  right. exists n. repeat split; try assumption.
  destruct keep; now apply Hc.
Qed.

Lemma write_back_summary (E : Env) (keep : bool)
    (table : list ChangeRequest) :
  forall rows fs,
    Forall3 (row_summary E) (List.filter is_active_cr table) rows fs ->
    exists fs',
      Forall3 (entry_summary E) table (write_back keep table rows) fs'
      /\ concat fs' = concat fs.
Proof.
  induction table as [| cr table IH]; intros rows fs H; simpl in *.
  - inversion H; subst. exists []. split; constructor.
  - destruct (is_active_cr cr).
    + inversion H as [| c r f l1 l2 l3 Hr Hrest]; subst.
      destruct (IH _ _ Hrest) as (fs' & Hfs & Hc).
      exists (f :: fs'). split.
      * constructor; [now apply row_summary_entry | assumption].
      * simpl. now rewrite Hc.
    + destruct (IH _ _ H) as (fs' & Hfs & Hc).
      exists ([] :: fs'). split; [| assumption].
      constructor; [| assumption].
      split; [apply flags_grow_refl | now left].
Qed.

Lemma row_summary_revert_all (E : Env) (l : list ChangeRequest)
    (rows : list Row) (fs : list (list Notification)) :
  Forall3 (row_summary E) l rows fs ->
  Forall3 (row_summary E) l (map revert rows) fs.
Proof.
  induction 1; simpl; constructor; auto using row_summary_revert.
Qed.

(** The session of a sweep, row by row, and its outbox. *)
Lemma check_sla_deadlines_rows (E : Env) (table : list ChangeRequest) :
  exists fs,
    Forall3 (row_summary E) (List.filter is_active_cr table)
      (session (check_sla_deadlines E table)) fs
    /\ outbox (final (check_sla_deadlines E table)) = concat fs.
Proof.
  unfold check_sla_deadlines.
  destruct (sweep_loop E [] (map load (List.filter is_active_cr table))
              (snd (now_utc E initial_world))) as [[rows exc] w'] eqn:Hl.
  apply sweep_loop_summary in Hl.
  destruct Hl as (V' & rows_l & fs & -> & HV & Hrows & Hout).
  inversion HV; subst. simpl in *.
  exists fs. destruct exc; simpl; split; try assumption.
  now apply row_summary_revert_all.
Qed.

(** The table before and after a sweep, entry by entry, and its outbox. *)
Lemma sweep_table_summary (E : Env) (keep : bool)
    (table : list ChangeRequest) :
  exists fs,
    Forall3 (entry_summary E) table
      (write_back keep table (session (check_sla_deadlines E table))) fs
    /\ outbox (final (check_sla_deadlines E table)) = concat fs.
Proof.
  destruct (check_sla_deadlines_rows E table) as (fs & Hrows & Hout).
  destruct (write_back_summary E keep table _ _ Hrows) as (fs' & H & Hc).
  exists fs'. split; [assumption | congruence].
Qed.

Lemma flags_grow_kept (a b : ChangeRequest) : flags_grow a b -> flags_kept a b.
Proof.
  intros (x & y & -> & Hx & Hy). unfold flags_kept. simpl. auto.
Qed.

Lemma flags_grow_id (a b : ChangeRequest) : flags_grow a b -> cr_id b = cr_id a.
Proof. intros (x & y & -> & _). reflexivity. Qed.

Lemma flags_kept_refl (a : ChangeRequest) : flags_kept a a.
Proof. unfold flags_kept; auto. Qed.

Lemma flags_kept_trans (a b c : ChangeRequest) :
  flags_kept a b -> flags_kept b c -> flags_kept a c.
Proof.
  unfold flags_kept. intros (H1 & H2 & H3) (H4 & H5 & H6).
  repeat split; [congruence | auto | auto].
Qed.

Lemma entry_summary_kept (E : Env) (t t' : list ChangeRequest)
    (fs : list (list Notification)) :
  Forall3 (entry_summary E) t t' fs -> Forall2 flags_kept t t'.
Proof.
  induction 1 as [| a b f t t' fs [Hg _] _ IH]; constructor;
    auto using flags_grow_kept.
Qed.

Lemma entry_summary_ids (E : Env) (t t' : list ChangeRequest)
    (fs : list (list Notification)) :
  Forall3 (entry_summary E) t t' fs -> map cr_id t' = map cr_id t.
Proof.
  induction 1 as [| a b f t t' fs [Hg _] _ IH]; simpl; [reflexivity |].
  now rewrite IH, (flags_grow_id _ _ Hg).
Qed.



(** ** Histories of sweeps and calls *)

Lemma Forall2_flags_kept_refl (t : list ChangeRequest) :
  Forall2 flags_kept t t.
Proof. induction t; constructor; auto using flags_kept_refl. Qed.

Lemma Forall2_flags_kept_trans (a b c : list ChangeRequest) :
  Forall2 flags_kept a b -> Forall2 flags_kept b c -> Forall2 flags_kept a c.
Proof.
  intros Hab. revert c. induction Hab; intros c Hbc; inversion Hbc; subst;
    constructor; eauto using flags_kept_trans.
Qed.



(** A step of a history loses no flag of any row. *)
Lemma step_flags_kept (ev : Event)
    (st : list ChangeRequest * list Notification) :
  Forall2 flags_kept (fst st) (fst (step ev st)).
Proof.
  destruct st as [table notes]. destruct ev as [E keep | E w i t]; simpl.
  - destruct (sweep_table_summary E keep table) as (fs & H & _).
    eapply entry_summary_kept; eassumption.
  - destruct (table !! i) as [cr |] eqn:Hi;
      [| apply Forall2_flags_kept_refl].
    destruct (call_status E t cr w) as (cr' & w' & Hc & _ & Hb & Hw & Hid).
    rewrite Hc. simpl.
    rewrite <- (list_insert_id table i cr Hi) at 1.
    apply Forall2_insert; [apply Forall2_flags_kept_refl |].
    unfold flags_kept. rewrite Hb, Hw, Hid. auto.
Qed.

(** C5: along any history of sweeps and transition calls, every row keeps
    its identity and each of its two SLA flags, once true, stays true. *)
Theorem sla_flags_monotone (evs : list Event) (table : list ChangeRequest)
    (notes : list Notification) :
  Forall2 flags_kept table (fst (run_events evs (table, notes))).
Proof.
  unfold run_events.
  assert (H : forall st, Forall2 flags_kept (fst st)
                (fst (fold_left (fun st ev => step ev st) evs st))).
  { induction evs as [| ev evs IH]; intros st; simpl.
    - apply Forall2_flags_kept_refl.
    - eapply Forall2_flags_kept_trans; [apply step_flags_kept | apply IH]. }
  apply (H (table, notes)).
Qed.






(** ** Two sweeps at one instant *)

Ltac body_cases_at H Hclock :=
  unfold process_cr, check_sla_breach, is_deadline_warning_needed,
    send_sla_breach_email, send_sla_warning_email in H;
  unfold bind, ret, lift, logger, dispatch, db_commit, now_utc, now_local,
    dt_gt, dt_sub, truthy, is_set in H;
  repeat (first [rewrite time_until_deadline_run in H | break_match_hyp H];
          simpl in *; rewrite ?Hclock in *; try congruence);
  inversion H; subst; clear H; simpl.






Lemma revert_load (l : list ChangeRequest) :
  map revert (map load l) = map load l.
Proof. induction l; simpl; [reflexivity | now rewrite IHl]. Qed.

Lemma next_state_load (keep : bool) (l : list ChangeRequest) :
  map (next_state keep) (map load l) = l.
Proof.
  induction l; simpl; [reflexivity |].
  rewrite IHl. unfold next_state. destruct keep; reflexivity.
Qed.

(** Processing again, at the same instant, what a body run left behind:
    after a normal run nothing is dispatched, whether the next run sees the
    object or, when nothing was committed, the row as it was; after an
    exception the same row raises again and dispatches nothing. *)
Section FixedInstant.

Variable E : Env.
Variable now : Z.
Hypothesis Hclock : clock_fixed_at E now.
Hypothesis Hcommit : commits_succeed E.



End FixedInstant.






(** The first of the two sweeps above does dispatch: the warning for the
    request that is six hours before its deadline.  The overdue request
    gets no mail, there being no admin, but its flags are set. *)
Example sweep_sample_table :
  let E := fixed_clock (94 * hour) [] in
  let st1 := step (Sweep E false) (sample_table, []) in
  snd st1 = [mkNotification SlaWarning 1 [10]]
  /\ map (fun c => (is_sla_breached c, sla_warning_sent c)) (fst st1)
     = [(false, true); (true, true)].
Proof. vm_compute. split; reflexivity. Qed.


(** In that history the request warned at 94h is past its deadline at 101h
    and is then marked breached, without a second notification. *)
Example warned_then_breached :
  let evs := [Sweep (fixed_clock (94 * hour) []) false;
              Call (fixed_clock (95 * hour) []) initial_world 0
                (CallStartImplementation (sample_user 3 "implementer"));
              Sweep (fixed_clock (101 * hour) [5]) true] in
  let st := run_events evs (sample_table, []) in
  snd st = [mkNotification SlaWarning 1 [10]]
  /\ map (fun c => (status c, is_sla_breached c, sla_warning_sent c)) (fst st)
     = [(IN_PROGRESS, true, true); (IN_PROGRESS, true, true)].
Proof. vm_compute. split; reflexivity. Qed.

(** What a failing commit does: when the commit that follows a dispatch
    fails, the handler rolls the flag back and the next sweep dispatches the
    warning again. *)
Example commit_failure_after_dispatch :
  let E := mkEnv (fun _ => 94 * hour) 0 [] (fun _ => true) in
  let st1 := step (Sweep E false) (sample_table, []) in
  let st2 := step (Sweep E false) st1 in
  snd st1 = [mkNotification SlaWarning 1 [10]]
  /\ snd st2 = [mkNotification SlaWarning 1 [10];
                mkNotification SlaWarning 1 [10]]
  /\ raised (check_sla_deadlines E sample_table) = Some PersistenceError.
Proof. vm_compute. repeat split; reflexivity. Qed.



(** ** Failures during a sweep *)

Lemma sweep_loop_raised (E : Env) (l : list ChangeRequest) :
  forall (V : list Row) (w : World) rows e w',
    sweep_loop E V (map load l) w = (rows, Some e, w') ->
    exists pre cr post rows_pre w1,
      l = pre ++ cr :: post
      /\ sweep_loop E V (map load pre) w = (rows_pre, None, w1)
      /\ process_cr E cr w1 = (Raise e, w')
      /\ rows = rows_pre ++ load cr :: map load post.
Proof.
  induction l as [| cr l IH]; intros V w rows e w' H; simpl in H;
    [discriminate |].
  destruct (process_cr E cr w) as [[cr' | e0] w1] eqn:Hb.
  - apply IH in H.
    destruct H as (pre & c & post & rows_pre & w2 & -> & Hpre & Hc & ->).
    exists (cr :: pre), c, post, rows_pre, w2. simpl. rewrite Hb. auto.
  - injection H as <- <- <-.
    exists [], cr, l, V, w. simpl. auto.
Qed.

(** When the handler of the sweep has caught an exception, it was raised
    while processing some change request of the query, after the requests
    before it had been processed. *)
Lemma sweep_raised_cause (E : Env) (table : list ChangeRequest) (e : exn) :
  raised (check_sla_deadlines E table) = Some e ->
  exists pre cr post rows_pre w w',
    List.filter is_active_cr table = pre ++ cr :: post
    /\ sweep_loop E [] (map load pre) (snd (now_utc E initial_world))
       = (rows_pre, None, w)
    /\ process_cr E cr w = (Raise e, w').
Proof.
  unfold check_sla_deadlines.
  destruct (sweep_loop E [] (map load (List.filter is_active_cr table))
              (snd (now_utc E initial_world))) as [[rows exc] w'] eqn:Hl.
  destruct exc as [e0 |]; simpl; intros He; [| discriminate].
  injection He as ->.
  apply sweep_loop_raised in Hl.
  destruct Hl as (pre & cr & post & rows_pre & w1 & Hf & Hpre & Hc & ->).
  exists pre, cr, post, rows_pre, w1, w'. auto.
Qed.

(** The loop over a list in two parts: the second part is iterated only
    when the first raised nothing. *)
Lemma sweep_loop_app (E : Env) (a b : list Row) :
  forall (V : list Row) (w : World),
    sweep_loop E V (a ++ b) w
    = match sweep_loop E V a w with
      | (rows, None, w1) => sweep_loop E rows b w1
      | (rows, Some e, w1) => (rows ++ b, Some e, w1)
      end.
Proof.
  induction a as [| r a IH]; intros V w; simpl; [reflexivity |].
  destruct (process_cr E (obj r) w) as [[cr' | e] w1].
  - apply IH.
  - now rewrite <- app_assoc.
Qed.

(** C3, as the code has it: one handler surrounds the whole loop.  When
    the body raises for a change request of the query, the requests before
    it having been processed, the handler catches that exception, logs it
    and rolls the session back, and the run ends in the world of the
    failure: the requests after it are left as loaded, with nothing
    dispatched, committed or logged for them. *)
Theorem sweep_failure_ends_the_run (E : Env) (table : list ChangeRequest)
    (pre : list ChangeRequest) (cr : ChangeRequest)
    (post : list ChangeRequest) (rows_pre : list Row) (w w' : World)
    (e : exn) :
  List.filter is_active_cr table = pre ++ cr :: post ->
  sweep_loop E [] (map load pre) (snd (now_utc E initial_world))
  = (rows_pre, None, w) ->
  process_cr E cr w = (Raise e, w') ->
  let r := check_sla_deadlines E table in
  raised r = Some e
  /\ session r = map revert rows_pre ++ load cr :: map load post
  /\ final r = snd (logger (LogError e) w')
  /\ outbox (final r) = outbox w' /\ commits (final r) = commits w'
  /\ log (final r) = log w' ++ [LogError e].
Proof.
  intros Hq Hpre Hc r. subst r. unfold check_sla_deadlines.
  rewrite Hq, map_app, sweep_loop_app, Hpre. simpl. rewrite Hc. simpl.
  split; [reflexivity |]. split.
  - rewrite map_app. simpl. now rewrite revert_load.
  - repeat split; reflexivity.
Qed.

Lemma sweep_failure_ends_the_run_witness :
  let E := fixed_clock (94 * hour) [5] in
  let last := sample_cr 3 IMPLEMENTED (Some (Aware (110 * hour))) in
  let r := check_sla_deadlines E (sample_table ++ [last]) in
  raised r = Some TypeError
  /\ map obj (session r)
     = [set_sla_warning_sent (sample_cr 1 APPROVED (Some (Aware (100 * hour))))
          true;
        sample_cr 2 IN_PROGRESS (Some (Aware (90 * hour)));
        last]
  /\ outbox (final r) = [mkNotification SlaWarning 1 [10]].
Proof.
  cbv zeta.
  edestruct (sweep_failure_ends_the_run (fixed_clock (94 * hour) [5])
               (sample_table
                ++ [sample_cr 3 IMPLEMENTED (Some (Aware (110 * hour)))])
               [sample_cr 1 APPROVED (Some (Aware (100 * hour)))]
               (sample_cr 2 IN_PROGRESS (Some (Aware (90 * hour))))
               [sample_cr 3 IMPLEMENTED (Some (Aware (110 * hour)))])
    as (Hr & Hs & _ & Ho & _).
  - vm_compute. reflexivity.
  - vm_compute. reflexivity.
  - vm_compute. reflexivity.
  - split; [exact Hr |]. split.
    + rewrite Hs. vm_compute. reflexivity.
    + rewrite Ho. vm_compute. reflexivity.
Defined.

(** C3, as stated: the overdue request comes first in the query; with an
    admin to notify, the breach sender raises, and the request behind it,
    six hours before its deadline, is not processed: no warning, flag
    clear.  Swept alone it gets its warning.  The same happens when the
    commit for the first request fails. *)
Lemma sweep_failure_skips_remaining :
  let overdue := sample_cr 2 IN_PROGRESS (Some (Aware (90 * hour))) in
  let due_soon := sample_cr 1 APPROVED (Some (Aware (100 * hour))) in
  let E := fixed_clock (94 * hour) [5] in
  let E' := mkEnv (fun _ => 94 * hour) 0 [] (fun _ => true) in
  let r := check_sla_deadlines E [overdue; due_soon] in
  let r' := check_sla_deadlines E' [overdue; due_soon] in
  raised r = Some TypeError
  /\ session r = [load overdue; load due_soon]
  /\ outbox (final r) = []
  /\ raised r' = Some PersistenceError
  /\ session r' = [load overdue; load due_soon]
  /\ outbox (final r') = []
  /\ outbox (final (check_sla_deadlines E [due_soon]))
     = [mkNotification SlaWarning 1 [10]].
Proof. vm_compute. repeat split; reflexivity. Qed.

(** ** Change-request numbers *)

Lemma prefix_append (p s : string) : String.prefix p (p +:+ s) = true.
Proof.
  induction p as [| c p IH]; simpl.
  - destruct s; reflexivity.
  - destruct (ascii_dec c c) as [_ | Hn]; [assumption | contradiction].
Qed.

Lemma lower_append (a b : string) : lower (a +:+ b) = lower a +:+ lower b.
Proof. induction a as [| c a IH]; simpl; [reflexivity | now rewrite IH]. Qed.

Lemma sql_like_prefix_append (ci : bool) (p s : string) :
  sql_like_prefix ci p (p +:+ s) = true.
Proof.
  unfold sql_like_prefix. destruct ci; [| apply prefix_append].
  rewrite lower_append. apply prefix_append.
Qed.

Lemma append_inj_l (p a b : string) : p +:+ a = p +:+ b -> a = b.
Proof.
  induction p as [| c p IH]; simpl; intros H; [assumption |].
  injection H as H. now apply IH.
Qed.

Lemma parse_nat_zeros (k : nat) (s : string) :
  parse_nat (zeros k +:+ s) = parse_nat s.
Proof.
  induction k as [| k IH]; simpl; [reflexivity |].
  unfold parse_nat in *. simpl.
  destruct (NilEmpty.uint_of_string (zeros k +:+ s)) as [d |];
    destruct (NilEmpty.uint_of_string s) as [d' |]; simpl in *;
    try discriminate; try reflexivity.
  injection IH as IH. f_equal. unfold Nat.of_uint in *. simpl. exact IH.
Qed.

Lemma parse_nat_format (width n : nat) :
  parse_nat (format_0d width n) = Some n.
Proof.
  unfold format_0d. rewrite parse_nat_zeros. unfold parse_nat.
  rewrite NilEmpty.usu. simpl. now rewrite Unsigned.of_to.
Qed.

Lemma format_0d_inj (width a b : nat) :
  format_0d width a = format_0d width b -> a = b.
Proof.
  intros H. apply (f_equal parse_nat) in H.
  rewrite !parse_nat_format in H. now injection H.
Qed.

Lemma cr_number_of_inj (today : Date) (a b : nat) :
  cr_number_of today a = cr_number_of today b -> a = b.
Proof.
  unfold cr_number_of. intros H.
  do 3 apply append_inj_l in H. now apply format_0d_inj in H.
Qed.

(** Up to 9999 the sequence has exactly four digits. *)
Lemma format_0d_4_length (k : nat) :
  (k < four_digits)%nat -> String.length (format_0d 4 k) = 4%nat.
Proof.
  intros Hk.
  assert (H : forallb (fun k => Nat.eqb (String.length (format_0d 4 k)) 4)
                (seq 0 four_digits) = true) by (vm_compute; reflexivity).
  rewrite forallb_forall in H. apply Nat.eqb_eq, H, in_seq. lia.
Qed.

Lemma count_with_prefix_app (ci : bool) (p : string)
    (a b : list ChangeRequest) :
  count_with_prefix ci p (a ++ b)
  = (count_with_prefix ci p a + count_with_prefix ci p b)%nat.
Proof.
  unfold count_with_prefix. now rewrite List.filter_app, length_app.
Qed.

Lemma generate_cr_number_of (ci : bool) (today : Date)
    (table : list ChangeRequest) :
  generate_cr_number ci today table
  = cr_number_of today
      (count_with_prefix ci ("CR-" +:+ strftime_Ymd today) table + 1).
Proof. reflexivity. Qed.

(** Creating one request raises the day's count by one. *)
Lemma count_after_create (ci : bool) (today : Date) (fields : ChangeRequest)
    (table : list ChangeRequest) :
  count_with_prefix ci ("CR-" +:+ strftime_Ymd today)
    (create_cr ci today fields table)
  = S (count_with_prefix ci ("CR-" +:+ strftime_Ymd today) table).
Proof.
  unfold create_cr. rewrite count_with_prefix_app.
  unfold count_with_prefix at 2. simpl.
  assert (H : sql_like_prefix ci ("CR-" +:+ strftime_Ymd today)
                (generate_cr_number ci today table) = true).
  { unfold generate_cr_number. cbv zeta.
    change ("CR-" +:+ strftime_Ymd today +:+ "-" +:+ ?x)
      with (("CR-" +:+ strftime_Ymd today) +:+ ("-" +:+ x)).
    apply sql_like_prefix_append. }
  unfold set_cr_number. simpl. rewrite H. simpl. lia.
Qed.

(** The numbers given to a batch of creations follow the day's count. *)
Lemma create_all_numbers (ci : bool) (today : Date)
    (new : list ChangeRequest) :
  forall table,
    exists created,
      create_all ci today new table = table ++ created
      /\ map cr_number created
         = map (fun k => cr_number_of today
                  (count_with_prefix ci ("CR-" +:+ strftime_Ymd today) table
                   + k))
             (seq 1 (length new)).
Proof.
  induction new as [| fields rest IH]; intros table; simpl.
  - exists []. now rewrite app_nil_r.
  - destruct (IH (create_cr ci today fields table)) as (created & Hc & Hn).
    exists (set_cr_number fields (generate_cr_number ci today table)
            :: created).
    split.
    + rewrite Hc. unfold create_cr. now rewrite <- app_assoc.
    + simpl. f_equal.
      rewrite Hn, count_after_create, <- (seq_shift (length rest) 1), map_map.
      apply map_ext. intros k. f_equal. lia.
Qed.

Lemma NoDup_map_inj {A B} (f : A -> B) (l : list A) :
  (forall x y, f x = f y -> x = y) -> NoDup l -> NoDup (map f l).
Proof.
  intros Hinj. induction 1 as [| x l Hx Hnd IH]; simpl; constructor;
    [| assumption].
  intros Hin. apply Hx. apply list_elem_of_In, in_map_iff in Hin.
  destruct Hin as (y & Hy & Hin). apply Hinj in Hy. subst.
  now apply list_elem_of_In.
Qed.

(** C9: when no change request of the table carries the day's prefix, the
    N requests created one after the other on that day, each persisted
    before the next number is generated, receive the numbers with sequences
    1 to N, without duplicates; each sequence is the count of the requests
    with the prefix plus one, written with four digits up to 9999. *)
Theorem cr_numbers_of_a_day (ci : bool) (today : Date)
    (new table : list ChangeRequest) :
  count_with_prefix ci ("CR-" +:+ strftime_Ymd today) table = 0%nat ->
  exists created,
    create_all ci today new table = table ++ created
    /\ map cr_number created
       = map (cr_number_of today) (seq 1 (length new))
    /\ NoDup (map cr_number created)
    /\ Forall (fun k => String.length (format_0d 4 k) = 4%nat)
         (seq 1 (min (length new) (four_digits - 1))).
Proof.
  intros H0.
  destruct (create_all_numbers ci today new table) as (created & Hc & Hn).
  rewrite H0 in Hn. simpl in Hn.
  exists created. split; [assumption |]. split; [assumption |]. split.
  - rewrite Hn. apply NoDup_map_inj; [apply cr_number_of_inj |].
    apply NoDup_ListNoDup, seq_NoDup.
  - apply Forall_forall. intros k Hk.
    apply list_elem_of_In, in_seq in Hk. apply format_0d_4_length.
    unfold four_digits in *. lia.
Qed.

Lemma cr_numbers_of_a_day_witness :
  exists created,
    create_all false (mkDate 2024 1 2)
      [sample_cr 3 DRAFT None; sample_cr 4 DRAFT None; sample_cr 5 DRAFT None]
      sample_table = sample_table ++ created
    /\ map cr_number created
       = map (cr_number_of (mkDate 2024 1 2)) (seq 1 3)
    /\ NoDup (map cr_number created)
    /\ Forall (fun k => String.length (format_0d 4 k) = 4%nat)
         (seq 1 (min 3 (four_digits - 1))).
Proof.
  apply (cr_numbers_of_a_day false (mkDate 2024 1 2)
           [sample_cr 3 DRAFT None; sample_cr 4 DRAFT None;
            sample_cr 5 DRAFT None] sample_table).
  vm_compute. reflexivity.
Defined.

(** The numbers of that day, written out. *)
Example cr_numbers_second_of_january :
  map cr_number
    (create_all true (mkDate 2024 1 2)
       [sample_cr 3 DRAFT None; sample_cr 4 DRAFT None; sample_cr 5 DRAFT None]
       [])
  = ["CR-20240102-0001"; "CR-20240102-0002"; "CR-20240102-0003"]%string.
Proof. vm_compute. reflexivity. Qed.

(** * Further properties of the code *)

(** ** The sweep and its senders *)

(** Whatever the loop body dispatches for a change request is the warning
    for it: the breach sender is only reached with an aware deadline, on
    which it raises before mailing, or without admins, when it returns
    early. *)
Lemma process_cr_dispatches_warning (E : Env) (cr : ChangeRequest)
    (w : World) (res : Result ChangeRequest) (w' : World) :
  process_cr E cr w = (res, w') ->
  outbox w' = outbox w \/ outbox w' = outbox w ++ [warning_for cr].
Proof.
  intros H. body_cases H; auto.
Qed.

Lemma sweep_loop_dispatches_warnings (E : Env) (l : list ChangeRequest) :
  forall V w,
    exists ns,
      outbox (snd (sweep_loop E V (map load l) w)) = outbox w ++ ns
      /\ Forall (fun n => exists cr, In cr l /\ n = warning_for cr) ns.
Proof.
  induction l as [| cr l IH]; intros V w; simpl.
  - exists []. now rewrite app_nil_r.
  - destruct (process_cr E cr w) as [[cr' | e] w1] eqn:Hb.
    + destruct (IH (if (commits w <? commits w1)%nat
                    then map flush (V ++ [mkRow cr' cr])
                    else V ++ [mkRow cr' cr]) w1) as (ns & Hout & Hns).
      assert (Hweak : Forall (fun n => exists c, In c (cr :: l)
                                         /\ n = warning_for c) ns).
      { eapply Forall_impl; [exact Hns |].
        intros n (c & Hc & Hn). exists c. simpl. auto. }
      destruct (process_cr_dispatches_warning _ _ _ _ _ Hb) as [Ho | Ho].
      * exists ns. rewrite Hout, Ho. auto.
      * exists (warning_for cr :: ns). rewrite Hout, Ho, <- app_assoc.
        split; [reflexivity |]. constructor; [| assumption].
        exists cr. simpl. auto.
    + simpl.
      destruct (process_cr_dispatches_warning _ _ _ _ _ Hb) as [Ho | Ho].
      * exists []. rewrite Ho, app_nil_r. auto.
      * exists [warning_for cr]. split; [assumption |].
        constructor; [| constructor]. exists cr. simpl. auto.
Qed.

(** X1: a sweep never dispatches a breach notification.  Every
    notification in its outbox is the warning for a change request of its
    query, whatever the clock, the admins and the failures. *)
Theorem sweep_dispatches_only_warnings (E : Env)
    (table : list ChangeRequest) :
  Forall (fun n => kind n = SlaWarning
                   /\ exists cr, In cr table /\ is_active_cr cr = true
                                 /\ n = warning_for cr)
    (outbox (final (check_sla_deadlines E table))).
Proof.
  unfold check_sla_deadlines.
  destruct (sweep_loop_dispatches_warnings E
              (List.filter is_active_cr table) []
              (snd (now_utc E initial_world))) as (ns & Hout & Hns).
  destruct (sweep_loop E [] _ (snd (now_utc E initial_world)))
    as [[rows exc] w'].
  simpl in Hout.
  assert (Hfin : outbox w' = ns) by exact Hout.
  assert (Hgoal : Forall (fun n => kind n = SlaWarning
                   /\ exists cr, In cr table /\ is_active_cr cr = true
                                 /\ n = warning_for cr) ns).
  { eapply Forall_impl; [exact Hns |].
    intros n (c & Hc & ->). split; [reflexivity |].
    apply filter_In in Hc. exists c. tauto. }
  destruct exc; simpl; rewrite Hfin; exact Hgoal.
Qed.

(** X2: the warning sender, called for a change request with a deadline,
    naive or aware, does not raise and dispatches one notification: to the
    requester and, when set, the implementer and the approver, nobody else,
    nobody twice.  Called for a change request without a deadline it raises
    AttributeError and mails nobody, without having read the clock. *)
Theorem send_sla_warning_email_recipients (E : Env) (cr : ChangeRequest)
    (w : World) :
  (forall d, implementation_deadline cr = Some d ->
     exists w',
       send_sla_warning_email E cr w = (Ok tt, w')
       /\ outbox w' = outbox w ++ [warning_for cr])
  /\ (implementation_deadline cr = None ->
      send_sla_warning_email E cr w = (Raise AttributeError, w))
  /\ NoDup (recipients (warning_for cr))
  /\ In (requester_id cr) (recipients (warning_for cr))
  /\ forall u, In u (recipients (warning_for cr)) ->
       u = requester_id cr \/ implementer_id cr = Some u
       \/ approver_id cr = Some u.
Proof.
  split; [| split].
  - intros d Hd. unfold send_sla_warning_email, bind.
    rewrite time_until_deadline_run, Hd. simpl.
    eexists. split; reflexivity.
  - intros Hd. unfold send_sla_warning_email, bind.
    rewrite time_until_deadline_run, Hd. reflexivity.
  - unfold warning_for. simpl. split; [apply NoDup_remove_dups |].
    split.
    + rewrite <- list_elem_of_In, elem_of_remove_dups, list_elem_of_In.
      apply in_or_app. right. apply in_or_app. right. simpl. auto.
    + intros u Hu.
      rewrite <- list_elem_of_In, elem_of_remove_dups, list_elem_of_In in Hu.
      apply in_app_or in Hu. destruct Hu as [Hu | Hu].
      * destruct (implementer_id cr); simpl in Hu; [| tauto].
        destruct Hu as [-> | []]. auto.
      * apply in_app_or in Hu. destruct Hu as [Hu | Hu].
        -- destruct (approver_id cr); simpl in Hu; [| tauto].
           destruct Hu as [-> | []]. auto.
        -- simpl in Hu. destruct Hu as [-> | []]. auto.
Qed.

(** The breach sender raises on an aware deadline as soon as there is an
    admin to mail, and mails nobody when there is none. *)
Lemma send_sla_breach_email_aware (E : Env) (cr : ChangeRequest) (w : World)
    (t : Z) :
  implementation_deadline cr = Some (Aware t) ->
  exists w',
    send_sla_breach_email E cr w
    = (match admins E with [] => Ok tt | _ :: _ => Raise TypeError end, w')
    /\ outbox w' = outbox w.
Proof.
  intros Hd. unfold send_sla_breach_email. rewrite Hd.
  destruct (admins E); unfold_monad; simpl; eexists; split; reflexivity.
Qed.

Lemma write_back_touch (E : Env) (keep : bool) (table : list ChangeRequest) :
  forall rows fs,
    Forall3 (row_summary E) (List.filter is_active_cr table) rows fs ->
    Forall2 sweep_touch table (write_back keep table rows).
Proof.
  induction table as [| cr table IH]; intros rows fs H; simpl in *.
  - constructor.
  - destruct (is_active_cr cr) eqn:Ha.
    + inversion H as [| c r f l1 l2 l3 Hr Hrest]; subst.
      constructor; [| eapply IH; eassumption].
      split; [| intros Hf; rewrite Ha in Hf; discriminate].
      destruct Hr as (Hs & Ho & _). unfold next_state.
      destruct keep; assumption.
    + constructor; [| eapply IH; eassumption].
      split; [apply flags_grow_refl | reflexivity].
Qed.

(** X3: a sweep assigns nothing but the two SLA flags, which it only
    raises: every other column of the record (number, project, status, the
    people, the dates and deadlines, the reasons and comments) is after the
    sweep what it was before, and a row outside the query (status not
    Approved, InProgress or Implemented, or no deadline) is left as it was.
    This holds whatever fails, and whether pending changes are kept or not.
    The record leaves out [updated_at], which the database layer stamps on
    the rows that a commit of the sweep writes. *)
Theorem sweep_touches_flags_only (E : Env) (keep : bool)
    (table : list ChangeRequest) :
  Forall2 sweep_touch table
    (fst (step (Sweep E keep) (table, []))).
Proof.
  simpl. destruct (check_sla_deadlines_rows E table) as (fs & Hrows & _).
  eapply write_back_touch; eassumption.
Qed.

(** Turn the boolean tests in the hypotheses into arithmetic facts. *)
Ltac bool_to_prop :=
  repeat match goal with
    | H : negb _ = true |- _ => apply negb_true_iff in H
    | H : negb _ = false |- _ => apply negb_false_iff in H
    | H : _ && _ = true |- _ => apply andb_true_iff in H; destruct H
    | H : _ && _ = false |- _ => apply andb_false_iff in H; destruct H
    | H : (_ <? _) = true |- _ => apply Z.ltb_lt in H
    | H : (_ <? _) = false |- _ => apply Z.ltb_ge in H
    | H : (_ <=? _) = true |- _ => apply Z.leb_le in H
    | H : (_ <=? _) = false |- _ => apply Z.leb_gt in H
    | H : (_ =? _) = true |- _ => apply Z.eqb_eq in H
    | H : (_ =? _) = false |- _ => apply Z.eqb_neq in H
    end.

Ltac split_tests :=
  repeat match goal with
    | |- context [?a <? ?b] => destruct (Z.ltb_spec a b)
    | |- context [?a <=? ?b] => destruct (Z.leb_spec a b)
    end.

Section NoAdminFixedInstant.

Variable E : Env.
Variable now : Z.
Hypothesis Hclock : clock_fixed_at E now.
Hypothesis Hcommit : commits_succeed E.
Hypothesis Hadmins : admins E = [].

(** The loop body at a fixed instant, without admins and with commits
    succeeding, on a change request whose deadline can be compared. *)
Lemma process_cr_swept (cr : ChangeRequest) (w : World) :
  CRStatus_eqb (status cr) CLOSED = false ->
  comparable cr = true ->
  exists w',
    process_cr E cr w = (Ok (swept now cr), w')
    /\ outbox w' = outbox w
                   ++ (if due_soon now cr then [warning_for cr] else [])
    /\ (commits w <? commits w')%nat = commits_for now cr.
Proof.
  intros Hst Hcmp. pose proof Hclock as Hc. pose proof Hcommit as Hf.
  unfold clock_fixed_at, commits_succeed in Hc, Hf.
  destruct (process_cr E cr w) as [res w'] eqn:H.
  exists w'. unfold commits_for, swept, due_soon, comparable in *.
  destruct (is_sla_breached cr) eqn:Hbr, (sla_warning_sent cr) eqn:Hws.
  all: body_cases_at H Hc.
  all: try (rewrite Hf in *; discriminate).
  all: bool_to_prop; simpl in *; try congruence.
  all: simplify_eq; simpl in *.
  all: split_tests; simpl; try lia.
  all: rewrite ?app_nil_r.
  all: unfold set_sla_warning_sent, set_is_sla_breached; simpl;
    rewrite ?Hws, ?Hbr; simpl.
  all: try (split; [reflexivity |]; split; [reflexivity |]).
  all: try (apply Nat.ltb_lt; lia).
  all: try (apply Nat.ltb_ge; lia).
Qed.

Lemma flush_flush (X : list Row) : map flush (map flush X) = map flush X.
Proof. rewrite map_map. apply map_ext. reflexivity. Qed.

Lemma sweep_loop_swept (l : list ChangeRequest) :
  Forall (fun cr => CRStatus_eqb (status cr) CLOSED = false
                    /\ comparable cr = true) l ->
  forall V w,
    exists w',
      sweep_loop E V (map load l) w
      = ((if existsb (commits_for now) l then map flush V else V)
         ++ swept_rows now l, None, w')
      /\ outbox w' = outbox w
                      ++ map warning_for (List.filter (due_soon now) l).
Proof.
  induction 1 as [| cr l [Hst Hcmp] _ IH]; intros V w.
  - exists w. simpl. rewrite !app_nil_r. auto.
  - cbn [map sweep_loop load obj stored].
    destruct (process_cr_swept cr w Hst Hcmp) as (w1 & Hb & Hout & Hcm).
    rewrite Hb, Hcm.
    destruct (IH (if commits_for now cr
                  then map flush (V ++ [mkRow (swept now cr) cr])
                  else V ++ [mkRow (swept now cr) cr]) w1)
      as (w' & Hl & Hout').
    exists w'. split.
    + rewrite Hl. cbn [existsb swept_rows]. f_equal. f_equal.
      destruct (commits_for now cr), (existsb (commits_for now) l);
        cbn [orb]; rewrite ?flush_flush, ?map_app, <- ?app_assoc;
        reflexivity.
    + rewrite Hout', Hout, <- app_assoc. f_equal. cbn [List.filter].
      destruct (due_soon now cr); reflexivity.
Qed.

End NoAdminFixedInstant.

Lemma active_not_closed (cr : ChangeRequest) :
  is_active_cr cr = true -> CRStatus_eqb (status cr) CLOSED = false.
Proof.
  unfold is_active_cr. destruct (status cr); simpl; intros H;
    try discriminate; reflexivity.
Qed.

Lemma write_back_swept (keep : bool) (now : Z) (table : list ChangeRequest) :
  write_back keep table (swept_rows now (List.filter is_active_cr table))
  = swept_table keep now table.
Proof.
  induction table as [| cr table IH]; [reflexivity |].
  cbn [write_back swept_table List.filter].
  destruct (is_active_cr cr) eqn:Ha.
  - cbn [swept_rows andb]. rewrite IH. f_equal.
    unfold next_state. cbn [obj stored]. destruct keep; reflexivity.
  - cbn [andb]. now rewrite IH.
Qed.

Lemma swept_table_kept (now : Z) (table : list ChangeRequest) :
  swept_table true now table
  = map (fun cr => if is_active_cr cr then swept now cr else cr) table.
Proof.
  induction table as [| cr table IH]; [reflexivity |].
  cbn [swept_table map]. rewrite IH, orb_true_l, andb_true_r. reflexivity.
Qed.

(** X4: the sweep at a fixed instant, when commits succeed, no admin is
    configured and every deadline in the query is aware (or its breach is
    already recorded): it does not raise; it dispatches exactly the
    warnings for the requests of the query that are due within 24 hours and
    carry no flag, in query order; and the table afterwards is
    [swept_table]: the rows outside the query are as they were, and a row
    of the query is as [swept] describes when the body committed for it or
    for a row after it, or when pending changes are kept.  What is assigned
    with no commit after it, the breach flag of an overdue request already
    warned, is lost otherwise. *)
Theorem sweep_fixed_instant_spec (E : Env) (now : Z) (keep : bool)
    (table : list ChangeRequest) :
  clock_fixed_at E now -> commits_succeed E -> admins E = [] ->
  Forall (fun cr => is_active_cr cr = true -> comparable cr = true) table ->
  let r := check_sla_deadlines E table in
  raised r = None
  /\ outbox (final r)
     = map warning_for
         (List.filter (due_soon now) (List.filter is_active_cr table))
  /\ fst (step (Sweep E keep) (table, [])) = swept_table keep now table
  /\ swept_table true now table
     = map (fun cr => if is_active_cr cr then swept now cr else cr) table.
Proof.
  intros Hclock Hcommit Hadmins Hcmp r.
  assert (Hq : Forall (fun cr => CRStatus_eqb (status cr) CLOSED = false
                                 /\ comparable cr = true)
                 (List.filter is_active_cr table)).
  { apply Forall_forall. intros cr Hin.
    apply list_elem_of_In, filter_In in Hin. destruct Hin as [Hin Ha].
    rewrite Forall_forall in Hcmp.
    split; [now apply active_not_closed |].
    apply Hcmp; [now apply list_elem_of_In | assumption]. }
  destruct (sweep_loop_swept E now Hclock Hcommit Hadmins _ Hq []
              (snd (now_utc E initial_world)))
    as (w' & Hl & Hout).
  assert (Hr : r = mkSweepResult
                 (swept_rows now (List.filter is_active_cr table)) None
                 (snd (logger (LogCompleted
                   (length (List.filter is_active_cr table))) w'))).
  { subst r. unfold check_sla_deadlines. rewrite Hl.
    destruct (existsb (commits_for now) (List.filter is_active_cr table));
      reflexivity. }
  simpl. fold r. rewrite Hr. simpl.
  split; [reflexivity |]. split; [exact Hout |].
  split; [apply write_back_swept | apply swept_table_kept].
Qed.

Lemma sweep_fixed_instant_spec_witness :
  let E := fixed_clock (94 * hour) [] in
  let warned :=
    set_sla_warning_sent (sample_cr 3 IN_PROGRESS (Some (Aware (90 * hour))))
      true in
  let table := sample_table ++ [warned] in
  outbox (final (check_sla_deadlines E table))
  = [mkNotification SlaWarning 1 [10]]
  /\ map (fun c => (is_sla_breached c, sla_warning_sent c))
       (fst (step (Sweep E false) (table, [])))
     = [(false, true); (true, true); (false, true)]
  /\ map (fun c => (is_sla_breached c, sla_warning_sent c))
       (fst (step (Sweep E true) (table, [])))
     = [(false, true); (true, true); (true, true)].
Proof.
  cbv zeta.
  set (E := fixed_clock (94 * hour) []).
  set (table := sample_table
                ++ [set_sla_warning_sent
                      (sample_cr 3 IN_PROGRESS (Some (Aware (90 * hour))))
                      true]).
  assert (H1 : clock_fixed_at E (94 * hour)) by (intros n; reflexivity).
  assert (H2 : commits_succeed E) by (intros n; reflexivity).
  assert (H3 : admins E = []) by reflexivity.
  assert (H4 : Forall (fun cr => is_active_cr cr = true
                                 -> comparable cr = true) table)
    by (repeat constructor).
  destruct (sweep_fixed_instant_spec E (94 * hour) false table H1 H2 H3 H4)
    as (_ & Ho & Hf & _).
  destruct (sweep_fixed_instant_spec E (94 * hour) true table H1 H2 H3 H4)
    as (_ & _ & Ht & _).
  split; [rewrite Ho; vm_compute; reflexivity |].
  split; [rewrite Hf | rewrite Ht]; vm_compute; reflexivity.
Defined.

(** ** Change requests that make the sweep fail *)

Lemma process_cr_naive_raises (E : Env) (cr : ChangeRequest) (t : Z) :
  CRStatus_eqb (status cr) CLOSED = false ->
  implementation_deadline cr = Some (Naive t) ->
  is_sla_breached cr = false ->
  raises E cr.
Proof.
  intros Hst Hd Hbr w.
  destruct (process_cr E cr w) as [res w'] eqn:H.
  body_cases H; bool_to_prop; simplify_eq; try congruence; eauto.
Qed.

Lemma process_cr_overdue_raises (E : Env) (cr : ChangeRequest) (t : Z) :
  CRStatus_eqb (status cr) CLOSED = false ->
  implementation_deadline cr = Some (Aware t) ->
  is_sla_breached cr = false -> sla_warning_sent cr = false ->
  admin_after t E ->
  raises E cr.
Proof.
  intros Hst Hd Hbr Hws [Hadm Hlate] w.
  destruct (process_cr E cr w) as [res w'] eqn:H.
  pose proof (Hlate (ticks w)) as Hl.
  body_cases H; bool_to_prop; simplify_eq; try congruence; try lia; eauto.
Qed.

(** A change request on which the body raises stops every loop that
    contains it, and is still in the session as it was loaded. *)
Lemma sweep_loop_blocked (E : Env) (s : ChangeRequest)
    (l : list ChangeRequest) :
  raises E s -> In s l ->
  forall V w, exists rows e w',
    sweep_loop E V (map load l) w = (rows, Some e, w')
    /\ In (load s) (map revert rows).
Proof.
  intros Hr. induction l as [| cr l IH]; intros Hin V w; [destruct Hin |].
  simpl. destruct (process_cr E cr w) as [[cr' | e] w1] eqn:Hb.
  - destruct Hin as [-> | Hin].
    + destruct (Hr w) as (e & w' & He). rewrite He in Hb. discriminate.
    + apply IH. assumption.
  - exists (V ++ load cr :: map load l), e, w1. split; [reflexivity |].
    rewrite map_app. apply in_or_app. right. simpl.
    destruct Hin as [-> | Hin]; [now left | right].
    rewrite revert_load. now apply in_map.
Qed.

Lemma write_back_In (E : Env) (keep : bool) (table : list ChangeRequest) :
  forall rows fs r,
    Forall3 (row_summary E) (List.filter is_active_cr table) rows fs ->
    In r rows -> In (next_state keep r) (write_back keep table rows).
Proof.
  induction table as [| cr table IH]; intros rows fs r H Hin; simpl in *.
  - inversion H; subst. destruct Hin.
  - destruct (is_active_cr cr).
    + inversion H as [| c r0 f l1 l2 l3 Hr Hrest]; subst.
      destruct Hin as [-> | Hin]; [now left | right].
      eapply IH; eassumption.
    + right. eapply IH; eassumption.
Qed.

(** One sweep over a table that holds such a change request: it raises,
    and the request is in the table afterwards, unchanged. *)
Lemma sweep_blocked (E : Env) (keep : bool) (s : ChangeRequest)
    (table : list ChangeRequest) :
  raises E s -> In s table -> is_active_cr s = true ->
  raised (check_sla_deadlines E table) <> None
  /\ In s (write_back keep table (session (check_sla_deadlines E table))).
Proof.
  intros Hr Hin Ha.
  assert (Hq : In s (List.filter is_active_cr table))
    by (apply filter_In; auto).
  destruct (check_sla_deadlines_rows E table) as (fs & Hrows & _).
  pose proof (fun r => write_back_In E keep table _ _ r Hrows) as Hwb.
  revert Hwb. unfold check_sla_deadlines.
  destruct (sweep_loop_blocked E s _ Hr Hq []
              (snd (now_utc E initial_world)))
    as (rows & e & w' & Hl & Hs).
  rewrite Hl. simpl. intros Hwb. split; [discriminate |].
  specialize (Hwb (load s) Hs).
  unfold next_state, load in Hwb. simpl in Hwb. now destruct keep.
Qed.

Lemma sweep_outcomes_blocked (s : ChangeRequest) (runs : list (Env * bool)) :
  Forall (fun run => raises (fst run) s) runs ->
  is_active_cr s = true ->
  forall table, In s table ->
    Forall (fun o => o <> None) (sweep_outcomes runs table).
Proof.
  intros Hruns Ha.
  induction Hruns as [| [E keep] runs Hr _ IH]; intros table Hin; simpl;
    constructor.
  - apply (sweep_blocked E keep s table Hr Hin Ha).
  - apply IH. apply (sweep_blocked E keep s table Hr Hin Ha).
Qed.

(** X5: one change request in the query whose deadline is naive and whose
    breach is not yet recorded makes every sweep raise, run after run,
    whatever the clocks, the admins and the other rows: the comparison with
    the aware current time raises and the rollback leaves the request as it
    was. *)
Theorem naive_deadline_fails_every_sweep (cr : ChangeRequest) (t : Z)
    (runs : list (Env * bool)) (table : list ChangeRequest) :
  In cr table -> is_active_cr cr = true ->
  implementation_deadline cr = Some (Naive t) ->
  is_sla_breached cr = false ->
  Forall (fun o => o <> None) (sweep_outcomes runs table).
Proof.
  intros Hin Ha Hd Hbr.
  apply (sweep_outcomes_blocked cr runs); try assumption.
  apply Forall_forall. intros run _.
  eapply process_cr_naive_raises; eauto using active_not_closed.
Qed.

Lemma naive_deadline_fails_every_sweep_witness :
  Forall (fun o => o <> None)
    (sweep_outcomes
       [(fixed_clock (94 * hour) [], false);
        (fixed_clock (200 * hour) [5], true)]
       (sample_table ++ [sample_cr 3 APPROVED (Some (Naive (100 * hour)))])).
Proof.
  apply (naive_deadline_fails_every_sweep
           (sample_cr 3 APPROVED (Some (Naive (100 * hour)))) (100 * hour)).
  - apply in_or_app. right. now left.
  - reflexivity.
  - reflexivity.
  - reflexivity.
Defined.

(** X6: with an admin to mail, a change request of the query that is
    overdue, aware, and carries no flag makes every sweep raise, run after
    run: the breach sender subtracts the aware deadline from a naive current
    time, and the rollback leaves the request as it was. *)
Theorem overdue_with_admin_fails_every_sweep (cr : ChangeRequest) (t : Z)
    (runs : list (Env * bool)) (table : list ChangeRequest) :
  In cr table -> is_active_cr cr = true ->
  implementation_deadline cr = Some (Aware t) ->
  is_sla_breached cr = false -> sla_warning_sent cr = false ->
  Forall (fun run => admin_after t (fst run)) runs ->
  Forall (fun o => o <> None) (sweep_outcomes runs table).
Proof.
  intros Hin Ha Hd Hbr Hws Hruns.
  apply (sweep_outcomes_blocked cr runs); try assumption.
  eapply Forall_impl; [exact Hruns |]. intros run Hrun.
  eapply process_cr_overdue_raises; eauto using active_not_closed.
Qed.

Lemma overdue_with_admin_fails_every_sweep_witness :
  Forall (fun o => o <> None)
    (sweep_outcomes
       [(fixed_clock (94 * hour) [5], false);
        (fixed_clock (200 * hour) [5; 6], true)]
       sample_table).
Proof.
  apply (overdue_with_admin_fails_every_sweep
           (sample_cr 2 IN_PROGRESS (Some (Aware (90 * hour)))) (90 * hour)).
  - right. now left.
  - reflexivity.
  - reflexivity.
  - reflexivity.
  - reflexivity.
  - repeat constructor; try discriminate; intros n; reflexivity.
Defined.

(** ** The SLA evaluator of the entity *)

(** X7: [check_sla_breach] reports a breach once.  It answers true only for
    an aware deadline that the clock has passed, sets [is_sla_breached] as
    it does, and from then on answers false without reading the clock or
    changing anything. *)
Theorem check_sla_breach_reports_once (E : Env) (cr cr' : ChangeRequest)
    (w w' : World) :
  check_sla_breach E cr w = (Ok (cr', true), w') ->
  (exists t, implementation_deadline cr = Some (Aware t)
             /\ t < clock E (ticks w))
  /\ cr' = set_is_sla_breached cr true
  /\ forall E2 w2, check_sla_breach E2 cr' w2 = (Ok (cr', false), w2).
Proof.
  unfold check_sla_breach. unfold_monad.
  destruct (implementation_deadline cr) as [[t | t] |] eqn:Hd;
    destruct (is_sla_breached cr) eqn:Hb; simpl; try discriminate.
  destruct (t <? clock E (ticks w)) eqn:Hlt; intros H; simplify_eq.
  apply Z.ltb_lt in Hlt. split; [eauto |]. split; [reflexivity |].
  intros E2 w2. simpl. rewrite Hd. reflexivity.
Qed.

Lemma check_sla_breach_reports_once_witness :
  let cr := sample_cr 2 IN_PROGRESS (Some (Aware (90 * hour))) in
  let E := fixed_clock (94 * hour) [] in
  (exists t, implementation_deadline cr = Some (Aware t)
             /\ t < clock E (ticks initial_world))
  /\ set_is_sla_breached cr true = set_is_sla_breached cr true
  /\ forall E2 w2,
       check_sla_breach E2 (set_is_sla_breached cr true) w2
       = (Ok (set_is_sla_breached cr true, false), w2).
Proof.
  apply (check_sla_breach_reports_once (fixed_clock (94 * hour) [])
           (sample_cr 2 IN_PROGRESS (Some (Aware (90 * hour))))
           (set_is_sla_breached
              (sample_cr 2 IN_PROGRESS (Some (Aware (90 * hour)))) true)
           initial_world (tick 1 initial_world)).
  reflexivity.
Defined.

(** X8: the entity treats a naive deadline in two ways.  With the breach
    not yet recorded, [check_sla_breach] raises TypeError on it, while
    [time_until_deadline] reads it as UTC and [is_deadline_warning_needed]
    answers normally. *)
Theorem naive_deadline_evaluators (E : Env) (cr : ChangeRequest) (w : World)
    (t : Z) :
  implementation_deadline cr = Some (Naive t) ->
  is_sla_breached cr = false ->
  fst (check_sla_breach E cr w) = Raise TypeError
  /\ fst (time_until_deadline E cr w) = Ok (Some (t - clock E (ticks w)))
  /\ fst (is_deadline_warning_needed E cr w)
     = Ok (negb (sla_warning_sent cr)
           && negb (t - clock E (ticks w) =? 0)
           && (t - clock E (ticks w) <=? seconds_24h)).
Proof.
  intros Hd Hb.
  unfold check_sla_breach, is_deadline_warning_needed.
  rewrite Hd, Hb. unfold_monad. simpl.
  split; [reflexivity |].
  destruct (sla_warning_sent cr); simpl;
    rewrite !time_until_deadline_run, Hd; simpl;
    (split; [reflexivity |]); [reflexivity |].
  destruct (negb (t - clock E (ticks w) =? 0)
            && (t - clock E (ticks w) <=? seconds_24h)); reflexivity.
Qed.

Lemma naive_deadline_evaluators_witness :
  let cr := sample_cr 3 APPROVED (Some (Naive (100 * hour))) in
  let E := fixed_clock (94 * hour) [] in
  fst (check_sla_breach E cr initial_world) = Raise TypeError
  /\ fst (time_until_deadline E cr initial_world)
     = Ok (Some (100 * hour - clock E (ticks initial_world)))
  /\ fst (is_deadline_warning_needed E cr initial_world)
     = Ok (negb (sla_warning_sent cr)
           && negb (100 * hour - clock E (ticks initial_world) =? 0)
           && (100 * hour - clock E (ticks initial_world) <=? seconds_24h)).
Proof.
  apply (naive_deadline_evaluators (fixed_clock (94 * hour) [])
           (sample_cr 3 APPROVED (Some (Naive (100 * hour))))
           initial_world (100 * hour)); reflexivity.
Defined.

(** ** Transitions and guards together *)

(** X9: a second [submit] changes nothing: whatever [submit] returned is
    left as it is by another [submit], clock unread. *)
Theorem submit_twice (E E2 : Env) (cr cr1 : ChangeRequest) (w w1 w2 : World) :
  submit E cr w = (Ok cr1, w1) ->
  submit E2 cr1 w2 = (Ok cr1, w2).
Proof.
  unfold submit. unfold_monad.
  destruct (CRStatus_eqb (status cr) DRAFT) eqn:Hs; intros H; simplify_eq.
  - reflexivity.
  - now rewrite Hs.
Qed.

Lemma submit_twice_witness :
  let E := fixed_clock (30 * hour) [] in
  let cr1 := match fst (submit E (sample_cr 1 DRAFT None) initial_world) with
             | Ok c => c
             | Raise _ => sample_cr 1 DRAFT None
             end in
  submit (fixed_clock (50 * hour) []) cr1 initial_world
  = (Ok cr1, initial_world).
Proof.
  apply (submit_twice (fixed_clock (30 * hour) []) (fixed_clock (50 * hour) [])
           (sample_cr 1 DRAFT None) _ initial_world (tick 2 initial_world)).
  reflexivity.
Defined.

(** X10: every transition method other than [submit] and
    [start_implementation] freezes the content: after it, [can_edit] is
    false for every user, whatever the status was before the call.
    [submit] does not: after the submission of a draft the requester and
    the holders of manage_system can still edit. *)
Theorem call_freezes_content (E : Env) (t : Transition) (cr : ChangeRequest)
    (w : World) (u : User) :
  exists cr' w',
    call E t cr w = (Ok cr', w')
    /\ (t <> CallSubmit -> (forall i, t <> CallStartImplementation i) ->
        can_edit cr' u = false)
    /\ (t = CallSubmit -> status cr = DRAFT ->
        (can_edit cr' u = true <->
         requester_id cr = user_id u \/ holds_manage_system u)).
Proof.
  destruct (call_status E t cr w) as (cr' & w' & Hc & Hst & _).
  exists cr', w'. split; [assumption |]. split.
  - intros Hs Hi. apply can_edit_frozen.
    destruct t; simpl in *; rewrite Hst; auto 6.
    + contradiction.
    + now contradiction (Hi implementer).
  - intros -> Hd. simpl in Hc. unfold submit in Hc. rewrite Hd in Hc.
    simpl in Hc. unfold_monad. injection Hc as <- _.
    unfold can_edit, holds_manage_system. simpl.
    rewrite <- has_permission_holds.
    destruct (requester_id cr =? user_id u) eqn:Hr.
    + apply Z.eqb_eq in Hr. tauto.
    + apply Z.eqb_neq in Hr.
      destruct (has_permission u "manage_system"); intuition congruence.
Qed.

Lemma call_freezes_content_witness :
  exists cr' w',
    call (fixed_clock 0 []) (CallReject (sample_user 2 "approver") None)
      (sample_cr 1 PENDING_APPROVAL None) initial_world = (Ok cr', w')
    /\ can_edit cr' (sample_user 10 "requester") = false.
Proof.
  destruct (call_freezes_content (fixed_clock 0 [])
              (CallReject (sample_user 2 "approver") None)
              (sample_cr 1 PENDING_APPROVAL None) initial_world
              (sample_user 10 "requester"))
    as (cr' & w' & Hc & Hf & _).
  exists cr', w'. split; [exact Hc |].
  apply Hf; [discriminate | intros i; discriminate].
Defined.

(** X11: [start_implementation] opens the content for editing again: InProgress
    is not among the frozen statuses, so after it the requester and the
    holders of manage_system can edit, even though the request was frozen
    while Approved. *)
Theorem start_implementation_reopens_editing (E : Env) (cr : ChangeRequest)
    (implementer u : User) (w : World) :
  exists cr' w',
    start_implementation E cr implementer w = (Ok cr', w')
    /\ (can_edit cr' u = true <->
        requester_id cr = user_id u \/ holds_manage_system u).
Proof.
  unfold start_implementation. unfold_monad.
  do 2 eexists. split; [reflexivity |].
  unfold can_edit, holds_manage_system. simpl.
  rewrite <- has_permission_holds.
  destruct (requester_id cr =? user_id u) eqn:Hr.
  - apply Z.eqb_eq in Hr. tauto.
  - apply Z.eqb_neq in Hr.
    destruct (has_permission u "manage_system"); intuition congruence.
Qed.

Lemma run_calls_final (E : Env) (ts : list Transition) :
  forall cr w,
    let c := fst (fst (run_calls E ts cr w)) in
    cr_id c = cr_id cr /\ cr_number c = cr_number cr
    /\ project c = project cr /\ requester_id c = requester_id cr
    /\ implementation_deadline c = implementation_deadline cr
    /\ is_sla_breached c = is_sla_breached cr
    /\ sla_warning_sent c = sla_warning_sent cr.
Proof.
  induction ts as [| t ts IH]; intros cr w; simpl; [tauto |].
  assert (Hone : exists cr' w',
             call E t cr w = (Ok cr', w')
             /\ cr_id cr' = cr_id cr /\ cr_number cr' = cr_number cr
             /\ project cr' = project cr
             /\ requester_id cr' = requester_id cr
             /\ implementation_deadline cr' = implementation_deadline cr
             /\ is_sla_breached cr' = is_sla_breached cr
             /\ sla_warning_sent cr' = sla_warning_sent cr).
  { destruct t; simpl; unfold submit, approve, reject, start_implementation,
      complete_implementation, close, rollback;
      try destruct (CRStatus_eqb (status cr) DRAFT);
      do 2 eexists; (split; [reflexivity |]); simpl; tauto. }
  destruct Hone as (cr' & w' & Hc & H).
  rewrite Hc. specialize (IH cr' w').
  destruct (run_calls E ts cr' w') as [[c l] w'']. simpl in *.
  intuition congruence.
Qed.

(** X12: no sequence of transition calls changes the identifier, the number,
    the project, the requester, the implementation deadline or the two SLA
    flags of a change request. *)
Theorem calls_keep_identity (E : Env) (ts : list Transition)
    (cr : ChangeRequest) (w : World) :
  let c := fst (fst (run_calls E ts cr w)) in
  cr_id c = cr_id cr /\ cr_number c = cr_number cr
  /\ project c = project cr /\ requester_id c = requester_id cr
  /\ implementation_deadline c = implementation_deadline cr
  /\ is_sla_breached c = is_sla_breached cr
  /\ sla_warning_sent c = sla_warning_sent cr.
Proof. apply run_calls_final. Qed.

(** X13: a request is submitted once and approved once.  After a [submit]
    that [can_submit] allowed, nobody can submit again and the holders of
    approve_cr, and only they, can approve; after an [approve], nobody can
    approve again and the holders of implement_cr, and only they, can
    implement. *)
Theorem guards_hand_over (E : Env) (cr : ChangeRequest) (u v : User)
    (comments : option string) (w : World) :
  (can_submit cr u = true ->
   exists cr' w',
     submit E cr w = (Ok cr', w')
     /\ can_submit cr' v = false
     /\ can_approve cr' v = has_permission v "approve_cr")
  /\ (exists cr' w',
        approve E cr u comments w = (Ok cr', w')
        /\ can_approve cr' v = false
        /\ can_implement cr' v = has_permission v "implement_cr").
Proof.
  split.
  - unfold can_submit. intros H. apply andb_true_iff in H.
    destruct H as [_ Hs]. unfold submit. rewrite Hs. unfold_monad.
    do 2 eexists. split; [reflexivity |].
    unfold can_submit, can_approve. simpl.
    now rewrite andb_false_r, andb_true_r.
  - unfold approve. unfold_monad.
    do 2 eexists. split; [reflexivity |].
    unfold can_approve, can_implement. simpl.
    now rewrite andb_false_r, andb_true_r.
Qed.

Lemma guards_hand_over_witness :
  let requester := sample_user 10 "requester" in
  let approver := mkUser 2 (Some (mkRole "approver" ["approve_cr"]))
                    [mkMembership 1 true] in
  exists cr' w',
    submit (fixed_clock 0 []) (sample_cr 1 DRAFT None) initial_world
    = (Ok cr', w')
    /\ can_submit cr' approver = false
    /\ can_approve cr' approver = has_permission approver "approve_cr".
Proof.
  intros requester approver.
  destruct (guards_hand_over (fixed_clock 0 []) (sample_cr 1 DRAFT None)
              requester approver None initial_world) as [H1 _].
  apply H1. reflexivity.
Defined.

(** ** Administrators *)

(** X14: a user whose role is named exactly admin has access to every
    project, but to a change request only if they created its project;
    membership of the project does not count for them. *)
Theorem admin_project_and_cr_access (u : User) (p : Project)
    (cr : ChangeRequest) :
  is_admin u = true ->
  has_project_access u p = true
  /\ (can_access_cr u cr = true <->
      created_by_id (project cr) = Some (user_id u)).
Proof.
  intros Ha. split; [unfold has_project_access; now rewrite Ha |].
  assert (Hr : role_is u "admin").
  { unfold is_admin, has_role in Ha. unfold role_is.
    destruct (role u) as [r |]; [| discriminate].
    apply String.eqb_eq in Ha. simpl. now rewrite Ha. }
  unfold can_access_cr. fold (role_is u "admin").
  rewrite bool_decide_eq_true_2 by assumption.
  unfold option_Z_eqb.
  destruct (created_by_id (project cr)) as [c |];
    [| split; discriminate].
  rewrite Z.eqb_eq. split; congruence.
Qed.

Lemma admin_project_and_cr_access_witness :
  let u := sample_user 9 "admin" in
  has_project_access u (mkProject 4 None) = true
  /\ (can_access_cr u (sample_cr 1 APPROVED None) = true <->
      created_by_id (project (sample_cr 1 APPROVED None))
      = Some (user_id u)).
Proof.
  apply (admin_project_and_cr_access (sample_user 9 "admin")
           (mkProject 4 None) (sample_cr 1 APPROVED None)).
  reflexivity.
Defined.

(** ** Failed logins *)

Lemma failed_logins_state (n : nat) :
  forall u,
    failed_login_attempts (failed_logins n u)
    = failed_login_attempts u + Z.of_nat n
    /\ is_locked (failed_logins n u)
       = is_locked u
         || ((0 <? Z.of_nat n)
             && (5 <=? failed_login_attempts u + Z.of_nat n)).
Proof.
  induction n as [| n IH]; intros u.
  - simpl. rewrite Z.add_0_r, orb_false_r. auto.
  - cbn [failed_logins]. destruct (IH (increment_failed_login u)) as [Hc Hl].
    rewrite Hc, Hl. unfold increment_failed_login.
    destruct (Z.leb_spec 5 (failed_login_attempts u + 1)); simpl;
      (split; [lia |]).
    + destruct (Z.leb_spec 5 (failed_login_attempts u + Z.of_nat (S n)));
        [| lia].
      destruct (Z.ltb_spec 0 (Z.of_nat (S n))); [| lia].
      now rewrite orb_true_r.
    + replace (failed_login_attempts u + 1 + Z.of_nat n)
        with (failed_login_attempts u + Z.of_nat (S n)) by lia.
      destruct (Z.ltb_spec 0 (Z.of_nat n)); simpl.
      * destruct (Z.ltb_spec 0 (Z.of_nat (S n))); [reflexivity | lia].
      * destruct (Z.ltb_spec 0 (Z.of_nat (S n))); [| lia]. simpl.
        destruct (Z.leb_spec 5 (failed_login_attempts u + Z.of_nat (S n)));
          [lia |].
        reflexivity.
Qed.

(** X15: counting from a reset, the account is locked exactly from the fifth
    consecutive failed login on; the counter is the number of failures. *)
Theorem lock_after_five_failures (n : nat) (u : LoginColumns) :
  let s := failed_logins n (reset_failed_login u) in
  failed_login_attempts s = Z.of_nat n
  /\ (is_locked s = true <-> (5 <= n)%nat).
Proof.
  destruct (failed_logins_state n (reset_failed_login u)) as [Hc Hl].
  cbv zeta. rewrite Hc, Hl. simpl. split; [reflexivity |].
  destruct (Z.ltb_spec 0 (Z.of_nat n)), (Z.leb_spec 5 (Z.of_nat n));
    simpl; split; intros; try discriminate; try lia; reflexivity.
Qed.

(** X16: the login route never unlocks an account.  Once the lock is set,
    no sequence of posted forms, with the right or a wrong password, for an
    active or an inactive account, is accepted, and the lock is still set
    afterwards: [reset_failed_login] is reached only past the lock test. *)
Theorem login_never_unlocks (forms : list (bool * bool)) (u : LoginColumns) :
  is_locked u = true ->
  is_locked (snd (logins forms u)) = true
  /\ ~ In PasswordAccepted (fst (logins forms u)).
Proof.
  revert u. induction forms as [| [pw act] forms IH]; intros u Hl.
  - simpl. split; [assumption | tauto].
  - cbn [logins]. cbv zeta.
    assert (Hstep : is_locked (snd (login pw act u)) = true
                    /\ fst (login pw act u) <> PasswordAccepted).
    { unfold login. rewrite Hl. destruct pw; simpl.
      - split; [assumption | discriminate].
      - split; [| discriminate]. unfold increment_failed_login.
        destruct (5 <=? failed_login_attempts u + 1); simpl; auto. }
    destruct Hstep as [Hl' Hne].
    destruct (IH _ Hl') as [H1 H2]. simpl. split; [assumption |].
    intros [H | H]; [contradiction | contradiction].
Qed.

Lemma login_never_unlocks_witness :
  is_locked
    (snd (logins [(false, true); (true, true)] (mkLogin 5 true))) = true
  /\ ~ In PasswordAccepted
       (fst (logins [(false, true); (true, true)] (mkLogin 5 true))).
Proof.
  apply (login_never_unlocks [(false, true); (true, true)] (mkLogin 5 true)).
  reflexivity.
Defined.

Lemma logins_wrong_passwords (act : bool) (n : nat) :
  forall u, snd (logins (repeat (false, act) n) u) = failed_logins n u.
Proof.
  induction n as [| n IH]; intros u; [reflexivity |].
  cbn [repeat logins failed_logins]. cbv zeta. simpl. apply IH.
Qed.

(** X17: wrong passwords lock the account as soon as the counter reaches
    five, wherever it started, and from then on the right password is
    answered with the lock, not accepted. *)
Theorem wrong_passwords_lock (act : bool) (n : nat) (u : LoginColumns) :
  (0 < n)%nat ->
  5 <= failed_login_attempts u + Z.of_nat n ->
  let s := snd (logins (repeat (false, act) n) u) in
  is_locked s = true /\ fst (login true act s) = AccountLocked.
Proof.
  intros Hn H5. cbv zeta.
  assert (Hl : is_locked (snd (logins (repeat (false, act) n) u)) = true).
  { rewrite logins_wrong_passwords.
    destruct (failed_logins_state n u) as [_ ->].
    destruct (Z.ltb_spec 0 (Z.of_nat n)); [| lia].
    destruct (Z.leb_spec 5 (failed_login_attempts u + Z.of_nat n)); [| lia].
    apply orb_true_r. }
  split; [assumption |]. unfold login. now rewrite Hl.
Qed.

Lemma wrong_passwords_lock_witness :
  is_locked (snd (logins (repeat (false, true) 5) (mkLogin 0 false))) = true
  /\ fst (login true true
            (snd (logins (repeat (false, true) 5) (mkLogin 0 false))))
     = AccountLocked.
Proof.
  apply (wrong_passwords_lock true 5 (mkLogin 0 false)); simpl; lia.
Defined.

(** ** Permissions of a role *)

Lemma list_contains_In (x : string) (l : list string) :
  list_contains x l = true <-> In x l.
Proof.
  unfold list_contains. rewrite existsb_exists. split.
  - intros (y & Hy & He). apply String.eqb_eq in He. now subst.
  - intros H. exists x. split; [assumption | apply String.eqb_refl].
Qed.

Lemma role_has_permission_In (r : Role) (p : string) :
  role_has_permission r p = true <-> In p (permissions r).
Proof. apply list_contains_In. Qed.

Lemma list_remove_In (x y : string) (l : list string) :
  In y (list_remove x l) -> In y l.
Proof.
  induction l as [| z l IH]; simpl; [tauto |].
  destruct (String.eqb z x); simpl; tauto.
Qed.

Lemma list_remove_other (x y : string) (l : list string) :
  y <> x -> In y l -> In y (list_remove x l).
Proof.
  intros Hne. induction l as [| z l IH]; simpl; [tauto |].
  destruct (String.eqb z x) eqn:He.
  - apply String.eqb_eq in He. subst. intros [-> | H]; [contradiction | auto].
  - simpl. tauto.
Qed.

Lemma list_remove_NoDup (x : string) (l : list string) :
  NoDup l -> NoDup (list_remove x l) /\ ~ In x (list_remove x l).
Proof.
  induction 1 as [| z l Hz Hnd [IH1 IH2]]; simpl.
  - split; [constructor | tauto].
  - destruct (String.eqb z x) eqn:He.
    + apply String.eqb_eq in He. subst. split; [assumption |].
      intros Hin. apply Hz. now apply list_elem_of_In.
    + apply String.eqb_neq in He. split.
      * constructor; [| assumption].
        intros Hin. apply Hz. apply list_elem_of_In.
        apply list_elem_of_In in Hin. eapply list_remove_In; eassumption.
      * simpl. intros [H | H]; [contradiction | contradiction].
Qed.

Lemma list_remove_last (x : string) (l : list string) :
  ~ In x l -> list_remove x (l ++ [x]) = l.
Proof.
  induction l as [| z l IH]; simpl; intros Hn.
  - now rewrite String.eqb_refl.
  - destruct (String.eqb z x) eqn:He.
    + apply String.eqb_eq in He. subst. tauto.
    + f_equal. apply IH. tauto.
Qed.

(** X18: [add_permission] grants: afterwards the role has the permission
    and has the others exactly as before; adding what is already there
    changes nothing, so a list without duplicates stays so. *)
Theorem add_permission_grants (r : Role) (p q : string) :
  role_has_permission (add_permission r p) p = true
  /\ (q <> p ->
      role_has_permission (add_permission r p) q = role_has_permission r q)
  /\ add_permission (add_permission r p) p = add_permission r p
  /\ (NoDup (permissions r) -> NoDup (permissions (add_permission r p))).
Proof.
  unfold add_permission.
  destruct (list_contains p (permissions r)) eqn:Hc.
  - split; [exact Hc |]. split; [reflexivity |].
    rewrite Hc. split; [reflexivity | auto].
  - assert (Hn : ~ In p (permissions r)).
    { intros Hin. apply list_contains_In in Hin. congruence. }
    assert (Hp : list_contains p (permissions r ++ [p]) = true).
    { apply list_contains_In, in_or_app. right. now left. }
    split; [exact Hp |]. split.
    + intros Hne. unfold role_has_permission. simpl.
      rewrite existsb_app. simpl.
      destruct (String.eqb_spec p q) as [-> | _]; [contradiction |].
      now rewrite !orb_false_r.
    + simpl. rewrite Hp. split; [reflexivity |].
      intros Hnd. apply NoDup_app. split; [assumption |].
      split; [| apply NoDup_singleton].
      intros x Hx Hx'. apply list_elem_of_In in Hx.
      apply list_elem_of_In in Hx'. destruct Hx' as [<- | []]. contradiction.
Qed.

Lemma add_permission_grants_witness :
  let r := mkRole "tester" ["view_all_cr"] in
  role_has_permission (add_permission r "run_tests") "view_all_cr"
  = role_has_permission r "view_all_cr"
  /\ NoDup (permissions (add_permission r "run_tests")).
Proof.
  intros r.
  destruct (add_permission_grants r "run_tests" "view_all_cr")
    as (_ & H2 & _ & H4).
  split; [apply H2; discriminate |].
  apply H4. apply (bool_decide_unpack _). vm_compute. exact I.
Defined.

(** X19: [remove_permission] revokes, for a role whose permissions hold no
    duplicate: afterwards the role lacks the permission and has the others
    exactly as before, the list is still without duplicates, and removing
    what was just added to a role that lacked it gives the list back. *)
Theorem remove_permission_revokes (r : Role) (p q : string) :
  NoDup (permissions r) ->
  role_has_permission (remove_permission r p) p = false
  /\ (q <> p ->
      role_has_permission (remove_permission r p) q
      = role_has_permission r q)
  /\ NoDup (permissions (remove_permission r p))
  /\ (role_has_permission r p = false ->
      permissions (remove_permission (add_permission r p) p)
      = permissions r).
Proof.
  intros Hnd. unfold remove_permission.
  destruct (list_remove_NoDup p _ Hnd) as [Hnd' Hnot].
  assert (Hbool : forall (s : Role) (x : string),
             ~ In x (permissions s) -> role_has_permission s x = false).
  { intros s x Hx. destruct (role_has_permission s x) eqn:He;
      [| reflexivity].
    apply role_has_permission_In in He. contradiction. }
  destruct (list_contains p (permissions r)) eqn:Hc.
  - split; [apply Hbool; exact Hnot |]. split; [| split; [exact Hnd' |]].
    + intros Hne.
      destruct (role_has_permission r q) eqn:Hq.
      * apply role_has_permission_In. simpl.
        apply list_remove_other; [assumption |].
        now apply role_has_permission_In.
      * apply Hbool. simpl. intros Hin.
        apply list_remove_In, role_has_permission_In in Hin. congruence.
    + intros Hno. unfold role_has_permission in Hno.
      fold (list_contains p (permissions r)) in Hno. congruence.
  - split; [exact Hc |]. split; [reflexivity |]. split; [exact Hnd |].
    intros _. unfold add_permission. rewrite Hc. simpl.
    assert (Hp : list_contains p (permissions r ++ [p]) = true).
    { apply list_contains_In, in_or_app. right. now left. }
    rewrite Hp. simpl. apply list_remove_last.
    intros Hin. apply list_contains_In in Hin. congruence.
Qed.

Lemma remove_permission_revokes_witness :
  let r := mkRole "tester" ["view_all_cr"; "run_tests"] in
  role_has_permission (remove_permission r "run_tests") "run_tests" = false
  /\ NoDup (permissions (remove_permission r "run_tests")).
Proof.
  intros r.
  destruct (remove_permission_revokes r "run_tests" "view_all_cr")
    as (H1 & _ & H3 & _).
  - apply (bool_decide_unpack _). vm_compute. exact I.
  - split; assumption.
Defined.

(** ** Numbers of a day, across the table *)

Lemma string_length_append (a b : string) :
  String.length (a +:+ b) = (String.length a + String.length b)%nat.
Proof. induction a as [| c a IH]; simpl; [reflexivity | now rewrite IH]. Qed.

Lemma format_0d_2_length (k : nat) :
  (k < 10 * 10)%nat -> String.length (format_0d 2 k) = 2%nat.
Proof.
  intros Hk.
  assert (H : forallb (fun k => Nat.eqb (String.length (format_0d 2 k)) 2)
                (seq 0 (10 * 10)) = true) by (vm_compute; reflexivity).
  rewrite forallb_forall in H. apply Nat.eqb_eq, H, in_seq. lia.
Qed.

(** From the year 1000 on the year is written with four digits. *)
Lemma format_0d_1_year_length (y : nat) :
  (10 * 10 * 10 <= y < four_digits)%nat ->
  String.length (format_0d 1 y) = 4%nat.
Proof.
  intros Hy.
  assert (H : forallb (fun k => Nat.eqb (String.length (format_0d 1 k)) 4)
                (seq (10 * 10 * 10) (four_digits - 10 * 10 * 10)) = true)
    by (vm_compute; reflexivity).
  rewrite forallb_forall in H. apply Nat.eqb_eq, H, in_seq.
  unfold four_digits in *. lia.
Qed.

(** X20: the wire format of a generated number.  For a calendar date with
    a four-digit year (1000 to 9999) and while fewer than 9999 requests
    carry the day's prefix, the number has exactly 16 characters, starts
    with the prefix CR-YYYYMMDD and ends in the four digits of the count
    plus one, which can be read back from it. *)
Theorem generate_cr_number_format (ci : bool) (today : Date)
    (table : list ChangeRequest) :
  (10 * 10 * 10 <= year today < four_digits)%nat ->
  (1 <= month today <= 12)%nat -> (1 <= day today <= 31)%nat ->
  (count_with_prefix ci ("CR-" +:+ strftime_Ymd today) table + 1
   < four_digits)%nat ->
  let n := generate_cr_number ci today table in
  String.length n = 16%nat
  /\ exists seq4,
       n = "CR-" +:+ strftime_Ymd today +:+ "-" +:+ seq4
       /\ String.length seq4 = 4%nat
       /\ parse_nat seq4
          = Some (count_with_prefix ci ("CR-" +:+ strftime_Ymd today) table
                  + 1)%nat.
Proof.
  intros Hy Hm Hd Hc n. subst n. rewrite generate_cr_number_of.
  unfold cr_number_of. split.
  - rewrite !string_length_append. unfold strftime_Ymd.
    rewrite !string_length_append.
    rewrite format_0d_1_year_length by assumption.
    rewrite format_0d_4_length by assumption.
    rewrite !format_0d_2_length by lia.
    reflexivity.
  - eexists. split; [reflexivity |].
    split; [now apply format_0d_4_length | apply parse_nat_format].
Qed.

Lemma generate_cr_number_format_witness :
  let n := generate_cr_number false (mkDate 2024 1 2) sample_table in
  String.length n = 16%nat
  /\ exists seq4,
       n = "CR-" +:+ strftime_Ymd (mkDate 2024 1 2) +:+ "-" +:+ seq4
       /\ String.length seq4 = 4%nat
       /\ parse_nat seq4
          = Some (count_with_prefix false
                    ("CR-" +:+ strftime_Ymd (mkDate 2024 1 2)) sample_table
                  + 1)%nat.
Proof.
  apply (generate_cr_number_format false (mkDate 2024 1 2) sample_table);
    vm_compute; lia.
Defined.

Lemma sql_like_prefix_generated (ci : bool) (today : Date) (k : nat) :
  sql_like_prefix ci ("CR-" +:+ strftime_Ymd today) (cr_number_of today k)
  = true.
Proof.
  unfold cr_number_of.
  change ("CR-" +:+ strftime_Ymd today +:+ "-" +:+ format_0d 4 k)
    with (("CR-" +:+ strftime_Ymd today) +:+ ("-" +:+ format_0d 4 k)).
  apply sql_like_prefix_append.
Qed.

(** A number of the day that a row of a table in sequence carries has a
    sequence between 1 and the count. *)
Lemma numbered_in_sequence_In (ci : bool) (today : Date)
    (table : list ChangeRequest) (k : nat) :
  numbered_in_sequence ci today table ->
  (In (cr_number_of today k) (map cr_number table) <->
   (1 <= k <= count_with_prefix ci ("CR-" +:+ strftime_Ymd today) table)%nat).
Proof.
  intros Hseq. unfold numbered_in_sequence in Hseq. split.
  - intros Hin. apply in_map_iff in Hin. destruct Hin as (x & Hx & Hin).
    assert (Hf : In (cr_number x)
               (map cr_number
                  (List.filter
                     (fun cr => sql_like_prefix ci
                                  ("CR-" +:+ strftime_Ymd today)
                                  (cr_number cr)) table))).
    { apply in_map, filter_In. split; [assumption |].
      rewrite Hx. apply sql_like_prefix_generated. }
    rewrite Hseq, Hx in Hf. apply in_map_iff in Hf.
    destruct Hf as (j & Hj & Hin'). apply cr_number_of_inj in Hj. subst j.
    apply in_seq in Hin'. lia.
  - intros Hk.
    assert (Hf : In (cr_number_of today k)
               (map (cr_number_of today)
                  (seq 1 (count_with_prefix ci
                            ("CR-" +:+ strftime_Ymd today) table)))).
    { apply in_map, in_seq. lia. }
    rewrite <- Hseq in Hf. apply in_map_iff in Hf.
    destruct Hf as (x & Hx & Hin). apply filter_In in Hin.
    apply in_map_iff. exists x. tauto.
Qed.

Lemma create_cr_in_sequence (ci : bool) (today : Date)
    (fields : ChangeRequest) (table : list ChangeRequest) :
  NoDup (map cr_number table) ->
  numbered_in_sequence ci today table ->
  NoDup (map cr_number (create_cr ci today fields table))
  /\ numbered_in_sequence ci today (create_cr ci today fields table).
Proof.
  intros Hnd Hseq. split.
  - unfold create_cr. rewrite map_app. simpl.
    apply NoDup_app. split; [assumption |].
    split; [| apply NoDup_singleton].
    intros x Hx Hx'. apply list_elem_of_In in Hx.
    apply list_elem_of_In in Hx'. destruct Hx' as [<- | []].
    unfold set_cr_number in Hx. simpl in Hx.
    rewrite generate_cr_number_of in Hx.
    apply (numbered_in_sequence_In ci today table _ Hseq) in Hx. lia.
  - unfold numbered_in_sequence in *.
    rewrite count_after_create, seq_S, map_app.
    unfold create_cr. rewrite List.filter_app, map_app, Hseq.
    f_equal. cbn [List.filter cr_number set_cr_number].
    rewrite generate_cr_number_of, sql_like_prefix_generated.
    cbn [map]. apply (f_equal (fun k => [cr_number_of today k])). lia.
Qed.

(** X21: numbers stay unique across the whole table.  When the numbers of
    the table are distinct and the requests with the day's prefix are
    numbered 1 to their count, any batch of requests created one after the
    other leaves a table whose numbers are all distinct and still in
    sequence. *)
Theorem create_all_keeps_numbers_unique (ci : bool) (today : Date)
    (new table : list ChangeRequest) :
  NoDup (map cr_number table) ->
  numbered_in_sequence ci today table ->
  NoDup (map cr_number (create_all ci today new table))
  /\ numbered_in_sequence ci today (create_all ci today new table).
Proof.
  revert table. induction new as [| fields rest IH]; intros table Hnd Hseq;
    simpl; [auto |].
  destruct (create_cr_in_sequence ci today fields table Hnd Hseq).
  now apply IH.
Qed.

Lemma create_all_keeps_numbers_unique_witness :
  NoDup (map cr_number
           (create_all false (mkDate 2024 1 1)
              [sample_cr 7 DRAFT None; sample_cr 8 DRAFT None] sample_table))
  /\ numbered_in_sequence false (mkDate 2024 1 1)
       (create_all false (mkDate 2024 1 1)
          [sample_cr 7 DRAFT None; sample_cr 8 DRAFT None] sample_table).
Proof.
  apply (create_all_keeps_numbers_unique false (mkDate 2024 1 1)
           [sample_cr 7 DRAFT None; sample_cr 8 DRAFT None] sample_table).
  - apply (bool_decide_unpack _). vm_compute. exact I.
  - vm_compute. reflexivity.
Defined.

(** X22: the count does not survive a deletion.  In a table numbered in
    sequence, once a request of the day other than the last one is deleted,
    the next generated number is the one that the last request of the day
    already carries. *)
Theorem generate_cr_number_after_delete (ci : bool) (today : Date)
    (a b : list ChangeRequest) (x : ChangeRequest) (k : nat) :
  numbered_in_sequence ci today (a ++ x :: b) ->
  cr_number x = cr_number_of today k ->
  (k < count_with_prefix ci ("CR-" +:+ strftime_Ymd today) (a ++ x :: b))%nat ->
  In (generate_cr_number ci today (a ++ b)) (map cr_number (a ++ b)).
Proof.
  intros Hseq Hx Hk.
  set (c := count_with_prefix ci ("CR-" +:+ strftime_Ymd today)
              (a ++ x :: b)) in *.
  assert (Hcount : (count_with_prefix ci ("CR-" +:+ strftime_Ymd today)
                      (a ++ b) + 1 = c)%nat).
  { subst c. rewrite !count_with_prefix_app.
    unfold count_with_prefix at 4. simpl.
    rewrite Hx, sql_like_prefix_generated. simpl.
    unfold count_with_prefix. lia. }
  rewrite generate_cr_number_of, Hcount.
  assert (Hin : In (cr_number_of today c) (map cr_number (a ++ x :: b))).
  { apply (numbered_in_sequence_In ci today _ c Hseq). fold c. lia. }
  rewrite map_app in *. simpl in Hin.
  apply in_app_or in Hin. apply in_or_app.
  destruct Hin as [Hin | [Hin | Hin]]; auto.
  rewrite Hx in Hin. apply cr_number_of_inj in Hin. lia.
Qed.

Lemma generate_cr_number_after_delete_witness :
  In (generate_cr_number false (mkDate 2024 1 1)
        ([] ++ [sample_cr 2 IN_PROGRESS (Some (Aware (90 * hour)))]))
     (map cr_number
        ([] ++ [sample_cr 2 IN_PROGRESS (Some (Aware (90 * hour)))])).
Proof.
  apply (generate_cr_number_after_delete false (mkDate 2024 1 1) []
           [sample_cr 2 IN_PROGRESS (Some (Aware (90 * hour)))]
           (sample_cr 1 APPROVED (Some (Aware (100 * hour)))) 1).
  - vm_compute. reflexivity.
  - reflexivity.
  - vm_compute. lia.
Defined.
